(** * device.py: devices, worker threads, the location locks and the barrier

    A shallow embedding of [src/device.py].  The module has three classes:
    [Barrier] (a counter guarded by a condition variable), [Device] (sensor
    readings, the scripts received from the supervisor, the class-level
    lock registry [Device.locks] and the class-level barrier
    [Device.bariera_devices]) and [DeviceThread] (the worker loop [run]).

    Threads are modelled by an interleaving semantics: every thread has a
    program counter named after the source line it is about to execute, and
    one step of one thread executes that line.  A step that cannot proceed
    (a held lock, an unset event, a condition variable that was not
    notified) is [None]: the thread is blocked.  Exceptions end the thread
    in the state [Crashed]. *)

From stdpp Require Import gmap list.
From Stdlib Require Import ZArith Lia.

Local Open Scope Z_scope.

(** Comparisons of the code, as propositions. *)
Ltac zbool :=
  repeat match goal with
    | H : (_ <? _) = true |- _ => apply Z.ltb_lt in H
    | H : (_ <? _) = false |- _ => apply Z.ltb_ge in H
    | H : (_ <=? _) = true |- _ => apply Z.leb_le in H
    | H : (_ <=? _) = false |- _ => apply Z.leb_gt in H
    | H : (_ =? _) = true |- _ => apply Z.eqb_eq in H
    | H : (_ =? _) = false |- _ => apply Z.eqb_neq in H
    end.

(** Case analysis on whether thread [u] is the acting thread [t]. *)
Ltac by_thread u t :=
  destruct (decide (u = t)) as [->|?]; simplify_map_eq; try done.

(** ** Python values shared by the three classes *)

(** The exceptions the modelled statements can raise. *)
Inductive exn :=
| IndexError     (* list index out of range *)
| TypeError      (* iterating over None *)
| RuntimeError.  (* releasing an unlocked lock *)

(** Outcome of a call: it returns, it blocks, or it raises. *)
Inductive outcome (A : Type) :=
| Returns (a : A)
| Blocks
| Raises (e : exn).
Arguments Returns {A} a.
Arguments Blocks {A}.
Arguments Raises {A} e.

(** A [threading.Lock]: unlocked ([None]) or held by a thread. *)
Abbreviation Lock := (option nat) (only parsing).

(** [Lock()]: a new lock is unlocked. *)
Definition Lock_new : Lock := None.

(** [lock.acquire()] by thread [t]: blocks while the lock is held (by any
    thread, the locks are not reentrant). *)
Definition Lock_acquire (t : nat) (l : Lock) : outcome Lock :=
  match l with
  | None => Returns (Some t)
  | Some _ => Blocks
  end.

(** [lock.release()]: any thread may release a held lock; releasing an
    unlocked lock raises [RuntimeError]. *)
Definition Lock_release (l : Lock) : outcome Lock :=
  match l with
  | Some _ => Returns None
  | None => Raises RuntimeError
  end.

(** [l[i]] on a Python list: indices [-len l .. -1] count from the end,
    anything else outside [0 .. len l - 1] is an [IndexError] ([None]). *)
Definition py_index {A : Type} (l : list A) (i : Z) : option A :=
  if i <? 0
  then if - Z.of_nat (length l) <=? i
       then l !! Z.to_nat (i + Z.of_nat (length l))
       else None
  else l !! Z.to_nat i.

(** ** class Barrier *)

(** A [threading.Condition]: its lock and its list of waiters, the
    threads blocked in [cond.wait()] that no [notify_all] has woken yet.
    A thread enters the list while it still holds the lock and leaves
    [cond.wait()] only after a [notify_all] has taken it off the list. *)
Record Condition := mkCondition {
  cond_lock : Lock;
  cond_waiters : list nat
}.

Record Barrier := mkBarrier {
  num_threads : Z;
  count_threads : Z;
  cond : Condition
}.

(** [Barrier.__init__(self, num_threads=0)]: three assignments, none of
    which can raise. *)
Definition Barrier_init (num_threads : Z) : outcome Barrier :=
  Returns {| num_threads := num_threads;
             count_threads := num_threads;
             cond := {| cond_lock := Lock_new; cond_waiters := [] |} |}.

(** [Barrier()]: the default party count. *)
Definition Barrier_default : outcome Barrier := Barrier_init 0.

Definition set_count_threads (c : Z) (b : Barrier) : Barrier :=
  {| num_threads := num_threads b; count_threads := c; cond := cond b |}.

Definition set_cond (c : Condition) (b : Barrier) : Barrier :=
  {| num_threads := num_threads b; count_threads := count_threads b; cond := c |}.

(** Where a thread stands inside [Barrier.wait], by source line.
    [W28_blocked] is a thread inside [self.cond.wait()]: it has released
    the condition's lock and sleeps until it is notified and can take the
    lock again. *)
Inductive wait_pc :=
| W20 | W21 | W22 | W24 | W25 | W28 | W28_blocked | W30.

Global Instance wait_pc_eq_dec : EqDecision wait_pc.
Proof. solve_decision. Defined.

(** One statement of [Barrier.wait] executed by thread [t] standing at
    [p].  The result is the next position ([None]: [wait] has returned)
    and the barrier after the statement; the whole result is [None] when
    the thread is blocked. *)
Definition wait_step (t : nat) (p : wait_pc) (b : Barrier)
  : option (option wait_pc * Barrier) :=
  match p with
  | W20 =>   (* self.cond.acquire() *)
      match Lock_acquire t (cond_lock (cond b)) with
      | Returns l =>
          Some (Some W21,
                set_cond {| cond_lock := l; cond_waiters := cond_waiters (cond b) |} b)
      | _ => None
      end
  | W21 =>   (* self.count_threads -= 1 *)
      Some (Some W22, set_count_threads (count_threads b - 1) b)
  | W22 =>   (* if self.count_threads == 0: *)
      if count_threads b =? 0 then Some (Some W24, b) else Some (Some W28, b)
  | W24 =>   (* self.cond.notify_all() *)
      Some (Some W25,
            set_cond {| cond_lock := cond_lock (cond b); cond_waiters := [] |} b)
  | W25 =>   (* self.count_threads = self.num_threads *)
      Some (Some W30, set_count_threads (num_threads b) b)
  | W28 =>   (* self.cond.wait(): enqueue, release the lock, sleep *)
      Some (Some W28_blocked,
            set_cond {| cond_lock := None;
                        cond_waiters := cond_waiters (cond b) ++ [t] |} b)
  | W28_blocked =>   (* woken by notify_all: take the lock again, return *)
      if decide (t ∈ cond_waiters (cond b)) then None
      else match Lock_acquire t (cond_lock (cond b)) with
           | Returns l =>
               Some (Some W30,
                     set_cond {| cond_lock := l;
                                 cond_waiters := cond_waiters (cond b) |} b)
           | _ => None
           end
  | W30 =>   (* self.cond.release(), by the thread that holds the lock *)
      Some (None,
            set_cond {| cond_lock := None; cond_waiters := cond_waiters (cond b) |} b)
  end.

(** *** Threads using one barrier

    Any number of threads call [wait] on one barrier, again and again.
    [br_inside] maps each thread that is inside [wait] to its position.
    Two history variables record what happened; no step reads them:
    [br_arrivals] counts the executions of line 21 (the arrivals), and
    [br_ticket] gives each thread the number of its latest arrival,
    counted from 0.  With [N] parties, arrival number [i] belongs to cycle
    [i / N] and is the [N]th of its cycle when [i mod N = N - 1]. *)
Record BarrierRun := mkBarrierRun {
  br_barrier : Barrier;
  br_inside : gmap nat wait_pc;
  br_arrivals : Z;
  br_ticket : gmap nat Z
}.

Inductive barrier_action :=
| Call (t : nat)      (* thread [t], outside, calls [wait] *)
| Advance (t : nat).  (* thread [t], inside, executes its next statement *)

Definition barrier_exec (a : barrier_action) (s : BarrierRun)
    : option BarrierRun :=
  match a with
  | Call t =>
      match br_inside s !! t with
      | None =>
          Some (mkBarrierRun (br_barrier s) (<[t := W20]> (br_inside s))
                  (br_arrivals s) (br_ticket s))
      | Some _ => None
      end
  | Advance t =>
      p ← br_inside s !! t;
      '(p', b) ← wait_step t p (br_barrier s);
      let inside :=
        match p' with
        | Some q => <[t := q]> (br_inside s)
        | None => delete t (br_inside s)
        end in
      Some (if decide (p = W21)
            then mkBarrierRun b inside (br_arrivals s + 1)
                   (<[t := br_arrivals s]> (br_ticket s))
            else mkBarrierRun b inside (br_arrivals s) (br_ticket s))
  end.

Fixpoint barrier_run (tr : list barrier_action) (s : BarrierRun)
    : option BarrierRun :=
  match tr with
  | [] => Some s
  | a :: tr' => s' ← barrier_exec a s; barrier_run tr' s'
  end.

(** A barrier nobody has called yet. *)
Definition barrier_start (b : Barrier) : BarrierRun :=
  mkBarrierRun b ∅ 0 ∅.

(** Thread [t] has been let through: it was notified (or was the one to
    notify) and has not yet returned from [wait]. *)
Definition released (s : BarrierRun) (t : nat) : Prop :=
  br_inside s !! t = Some W30 ∨ br_inside s !! t = Some W25 ∨
  (br_inside s !! t = Some W28_blocked ∧ t ∉ cond_waiters (cond (br_barrier s))).





(** What holds of a barrier whose party count is not positive: the
    counter is never positive, so the test of line 22 fails for every
    arrival, and every thread that sleeps stays on the list of waiters. *)
Record stuck_inv (s : BarrierRun) : Prop := {
  si_count : count_threads (br_barrier s) ≤ 0;
  si_test : ∀ t,
    br_inside s !! t = Some W22 → count_threads (br_barrier s) ≤ -1;
  si_inside : ∀ t p,
    br_inside s !! t = Some p → p ≠ W24 ∧ p ≠ W25 ∧ p ≠ W30;
  si_asleep : ∀ t,
    br_inside s !! t = Some W28_blocked →
    t ∈ cond_waiters (cond (br_barrier s))
}.

(** ** class Device *)

Section Model.

(** [Data] is the type of a sensor reading (a Python float; no claim
    depends on its arithmetic).  A script is modelled by its [run] method. *)
Context {Data : Type}.

Definition Script : Type := list Data → Data.

(** The fields of a [Device] object that [device.py] itself reads or
    writes.  [supervisor], [thread], [threads] are references to objects
    outside the model; [neighbours] holds Device references (positions in
    the object store of the [World] below), [None] being the value the
    supervisor returns when the simulation ends.  The two [Event]s are
    their flags. *)
Record Device := mkDevice {
  device_id : Z;
  sensor_data : gmap Z Data;
  scripts : list Script;
  locations : list Z;
  nr_scripturi : Z;
  script_crt : Z;
  timepoint_done : bool;
  neighbours : option (list nat);
  event_neighbours : bool;
  lock_script : Lock;
  bar_thr : Barrier
}.

(** [Device.__init__(self, device_id, sensor_data, supervisor)]; the
    threads it starts are entered in the thread table of the [World]. *)
Definition Device_init (device_id : Z) (sensor_data : gmap Z Data)
    : outcome Device :=
  match Barrier_init 8 with   (* self.bar_thr = Barrier(8) *)
  | Returns bar =>
      Returns {| device_id := device_id;
                 sensor_data := sensor_data;
                 scripts := [];
                 locations := [];
                 nr_scripturi := 0;
                 script_crt := 0;
                 timepoint_done := false;
                 neighbours := Some [];
                 event_neighbours := false;
                 lock_script := Lock_new;
                 bar_thr := bar |}
  | Blocks => Blocks
  | Raises e => Raises e
  end.

Definition set_sensor_data (m : gmap Z Data) (d : Device) : Device :=
  mkDevice (device_id d) m (scripts d) (locations d) (nr_scripturi d)
    (script_crt d) (timepoint_done d) (neighbours d) (event_neighbours d)
    (lock_script d) (bar_thr d).

Definition set_script_crt (c : Z) (d : Device) : Device :=
  mkDevice (device_id d) (sensor_data d) (scripts d) (locations d)
    (nr_scripturi d) c (timepoint_done d) (neighbours d)
    (event_neighbours d) (lock_script d) (bar_thr d).

Definition set_timepoint_done (f : bool) (d : Device) : Device :=
  mkDevice (device_id d) (sensor_data d) (scripts d) (locations d)
    (nr_scripturi d) (script_crt d) f (neighbours d) (event_neighbours d)
    (lock_script d) (bar_thr d).

Definition set_neighbours (n : option (list nat)) (d : Device) : Device :=
  mkDevice (device_id d) (sensor_data d) (scripts d) (locations d)
    (nr_scripturi d) (script_crt d) (timepoint_done d) n
    (event_neighbours d) (lock_script d) (bar_thr d).

Definition set_event_neighbours (f : bool) (d : Device) : Device :=
  mkDevice (device_id d) (sensor_data d) (scripts d) (locations d)
    (nr_scripturi d) (script_crt d) (timepoint_done d) (neighbours d) f
    (lock_script d) (bar_thr d).

Definition set_lock_script (l : Lock) (d : Device) : Device :=
  mkDevice (device_id d) (sensor_data d) (scripts d) (locations d)
    (nr_scripturi d) (script_crt d) (timepoint_done d) (neighbours d)
    (event_neighbours d) l (bar_thr d).

Definition set_bar_thr (b : Barrier) (d : Device) : Device :=
  mkDevice (device_id d) (sensor_data d) (scripts d) (locations d)
    (nr_scripturi d) (script_crt d) (timepoint_done d) (neighbours d)
    (event_neighbours d) (lock_script d) b.

(** [Device.assign_script(self, script, location)]; [script] is [None]
    when the supervisor has sent all the scripts of the timepoint. *)
Definition assign_script (script : option Script) (location : Z)
    (d : Device) : Device :=
  match script with
  | Some s =>
      mkDevice (device_id d) (sensor_data d)
        (scripts d ++ [s])            (* self.scripts.append(script) *)
        (locations d ++ [location])   (* self.locations.append(location) *)
        (nr_scripturi d + 1)          (* self.nr_scripturi += 1 *)
        (script_crt d) (timepoint_done d) (neighbours d)
        (event_neighbours d) (lock_script d) (bar_thr d)
  | None => set_timepoint_done true d   (* self.timepoint_done.set() *)
  end.

(** The (script, location) pairs a device has received, in order. *)
Definition assignments (d : Device) : list (Script * Z) :=
  zip (scripts d) (locations d).

(** [Device.get_data(self, location)]: the result and the device after the
    call. *)
Definition get_data (location : Z) (d : Device) : option Data * Device :=
  (match decide (location ∈ dom (sensor_data d)) with
   | left _ => sensor_data d !! location
   | right _ => None
   end, d).

(** [Device.set_data(self, location, data)]. *)
Definition set_data (location : Z) (data : Data) (d : Device) : Device :=
  if decide (location ∈ dom (sensor_data d))
  then set_sensor_data (<[location := data]> (sensor_data d)) d
  else d.

(** ** class DeviceThread and the objects the threads share *)

(** Program counter of a [DeviceThread] inside [run]: the source line the
    thread executes next.  A call of [Barrier.wait] carries the position
    inside [wait]. *)
Inductive PC :=
| L182 | L184 | L185 | L186 | L189 | L191 | L195
| L199 | L200 | L201 | L202 | L205 | L209 | L210 | L213
| L215 | L217 | L218 | L222 | L226 | L228 | L231 | L232 | L234 | L236
| L239 (p : wait_pc) | L241 | L242 | L243 | L244 (p : wait_pc)
| L246 | L247 (p : wait_pc)
| Terminated
| Crashed (e : exn).

(** A [DeviceThread]: its two fields, its program counter and the local
    variables of [run] ([v_iter] is the rest of the list a [for] loop is
    walking).  A local variable holds a default until its first
    assignment; [run] reads none before assigning it. *)
Record Thread := mkThread {
  th_device : nat;
  first : Z;
  pc : PC;
  v_index : Z;
  v_location : Z;
  v_script : option Script;
  v_script_data : list Data;
  v_result : option Data;
  v_iter : list nat
}.

Definition set_pc (p : PC) (th : Thread) : Thread :=
  mkThread (th_device th) (first th) p (v_index th) (v_location th)
    (v_script th) (v_script_data th) (v_result th) (v_iter th).

Definition set_index (i : Z) (th : Thread) : Thread :=
  mkThread (th_device th) (first th) (pc th) i (v_location th)
    (v_script th) (v_script_data th) (v_result th) (v_iter th).

Definition set_location (l : Z) (th : Thread) : Thread :=
  mkThread (th_device th) (first th) (pc th) (v_index th) l
    (v_script th) (v_script_data th) (v_result th) (v_iter th).

Definition set_script (s : option Script) (th : Thread) : Thread :=
  mkThread (th_device th) (first th) (pc th) (v_index th) (v_location th)
    s (v_script_data th) (v_result th) (v_iter th).

Definition set_script_data (l : list Data) (th : Thread) : Thread :=
  mkThread (th_device th) (first th) (pc th) (v_index th) (v_location th)
    (v_script th) l (v_result th) (v_iter th).

Definition set_result (r : option Data) (th : Thread) : Thread :=
  mkThread (th_device th) (first th) (pc th) (v_index th) (v_location th)
    (v_script th) (v_script_data th) r (v_iter th).

Definition set_iter (l : list nat) (th : Thread) : Thread :=
  mkThread (th_device th) (first th) (pc th) (v_index th) (v_location th)
    (v_script th) (v_script_data th) (v_result th) l.

(** Everything the threads share.  [devices] and [lock_store] are object
    stores: a Device reference is a position in [devices], a Lock
    reference a position in [lock_store].  [locks] and [bariera_devices]
    are the class attributes [Device.locks] and [Device.bariera_devices]. *)
Record World := mkWorld {
  devices : list Device;
  lock_store : list Lock;
  locks : list nat;
  bariera_devices : Barrier;
  threads : gmap nat Thread
}.

Definition set_devices (ds : list Device) (w : World) : World :=
  mkWorld ds (lock_store w) (locks w) (bariera_devices w) (threads w).

Definition set_lock_store (ls : list Lock) (w : World) : World :=
  mkWorld (devices w) ls (locks w) (bariera_devices w) (threads w).

Definition set_locks (l : list nat) (w : World) : World :=
  mkWorld (devices w) (lock_store w) l (bariera_devices w) (threads w).

Definition set_bariera_devices (b : Barrier) (w : World) : World :=
  mkWorld (devices w) (lock_store w) (locks w) b (threads w).

Definition set_thread (t : nat) (th : Thread) (w : World) : World :=
  mkWorld (devices w) (lock_store w) (locks w) (bariera_devices w)
    (<[t := th]> (threads w)).

Definition set_device (d : nat) (dev : Device) (w : World) : World :=
  set_devices (<[d := dev]> (devices w)) w.

(** [for _ in range(n): Device.locks.append(Lock())]: each round allocates
    a new lock object and appends its reference to the registry. *)
Fixpoint append_locks (n : nat) (store : list Lock) (registry : list nat)
  : list Lock * list nat :=
  match n with
  | O => (store, registry)
  | S k => append_locks k (store ++ [Lock_new]) (registry ++ [length store])
  end.

(** [Device.setup_devices(self, devices)]; [n_devices] is [len(devices)]
    and [num_locations] is
    [self.supervisor.supervisor.testcase.num_locations]. *)
Definition setup_devices (n_devices : nat) (num_locations : Z) (w : World)
    : outcome World :=
  match Barrier_init (Z.of_nat n_devices) with
  | Returns b =>
      let w1 := set_bariera_devices b w in
      match locks w1 with
      | [] =>   (* if Device.locks == []: *)
          let '(store, registry) :=
            append_locks (Z.to_nat num_locations) (lock_store w1) (locks w1) in
          Returns (set_locks registry (set_lock_store store w1))
      | _ :: _ => Returns w1
      end
  | Blocks => Blocks
  | Raises e => Raises e
  end.

(** Several calls of [setup_devices], one for each device of the
    simulation; each device passes the device list and reads the same
    testcase. *)
Fixpoint setup_many (calls : list nat) (num_locations : Z) (w : World)
    : outcome World :=
  match calls with
  | [] => Returns w
  | n_devices :: rest =>
      match setup_devices n_devices num_locations w with
      | Returns w' => setup_many rest num_locations w'
      | Blocks => Blocks
      | Raises e => Raises e
      end
  end.

(** [Device.locks[location].acquire()] by thread [t]. *)
Definition acquire_location (t : nat) (location : Z) (w : World)
    : outcome World :=
  match py_index (locks w) location with
  | None => Raises IndexError
  | Some r =>
      match lock_store w !! r with
      | None => Blocks   (* no such object: references are never dangling *)
      | Some l =>
          match Lock_acquire t l with
          | Returns l' => Returns (set_lock_store (<[r := l']> (lock_store w)) w)
          | Blocks => Blocks
          | Raises e => Raises e
          end
      end
  end.

(** [Device.locks[location].release()]. *)
Definition release_location (location : Z) (w : World) : outcome World :=
  match py_index (locks w) location with
  | None => Raises IndexError
  | Some r =>
      match lock_store w !! r with
      | None => Blocks
      | Some l =>
          match Lock_release l with
          | Returns l' => Returns (set_lock_store (<[r := l']> (lock_store w)) w)
          | Blocks => Blocks
          | Raises e => Raises e
          end
      end
  end.

(** [script_data.append(data)] under [if data is not None]. *)
Definition append_if_present (data : option Data) (l : list Data) : list Data :=
  match data with
  | Some x => l ++ [x]
  | None => l
  end.

(** A call of [Barrier.wait] from line [at_line] of [run], on the barrier
    read by [getb] and written by [setb]; [next] is the line after the
    call. *)
Definition call_wait (t : nat) (th : Thread) (p : wait_pc)
    (b : Barrier) (at_line : wait_pc → PC) (next : PC)
    : option (Thread * Barrier) :=
  match wait_step t p b with
  | Some (Some p', b') => Some (set_pc (at_line p') th, b')
  | Some (None, b') => Some (set_pc next th, b')
  | None => None
  end.

(** One statement of [DeviceThread.run] executed by thread [t].  [None]:
    the thread does not exist, is blocked, has ended, or stands at line
    184, where it needs the supervisor's answer (see [exec]). *)
Definition run_step (t : nat) (w : World) : option World :=
  th ← threads w !! t;
  dev ← devices w !! th_device th;
  let d := th_device th in
  let goto p := Some (set_thread t (set_pc p th) w) in
  let crash e := Some (set_thread t (set_pc (Crashed e) th) w) in
  match pc th with
  | L182 =>   (* if self.first == 1: *)
      if first th =? 1 then goto L184 else goto L189
  | L184 =>   (* self.device.neighbours = self.device.supervisor.get_neighbours() *)
      None
  | L185 =>   (* self.device.script_crt = 0 *)
      Some (set_thread t (set_pc L186 th) (set_device d (set_script_crt 0 dev) w))
  | L186 =>   (* self.device.event_neighbours.set() *)
      Some (set_thread t (set_pc L189 th)
              (set_device d (set_event_neighbours true dev) w))
  | L189 =>   (* self.device.event_neighbours.wait() *)
      if event_neighbours dev then goto L191 else None
  | L191 =>   (* if self.device.neighbours is None: break *)
      match neighbours dev with
      | None => goto Terminated
      | Some _ => goto L195
      end
  | L195 =>   (* self.device.timepoint_done.wait() *)
      if timepoint_done dev then goto L199 else None
  | L199 =>   (* self.device.lock_script.acquire() *)
      match Lock_acquire t (lock_script dev) with
      | Returns l =>
          Some (set_thread t (set_pc L200 th)
                  (set_device d (set_lock_script l dev) w))
      | Blocks => None
      | Raises e => crash e
      end
  | L200 =>   (* index = self.device.script_crt *)
      Some (set_thread t (set_pc L201 (set_index (script_crt dev) th)) w)
  | L201 =>   (* self.device.script_crt += 1 *)
      Some (set_thread t (set_pc L202 th)
              (set_device d (set_script_crt (script_crt dev + 1) dev) w))
  | L202 =>   (* self.device.lock_script.release() *)
      match Lock_release (lock_script dev) with
      | Returns l =>
          Some (set_thread t (set_pc L205 th)
                  (set_device d (set_lock_script l dev) w))
      | Blocks => None
      | Raises e => crash e
      end
  | L205 =>   (* if index >= self.device.nr_scripturi: break *)
      if nr_scripturi dev <=? v_index th then goto (L239 W20) else goto L209
  | L209 =>   (* location = self.device.locations[index] *)
      match py_index (locations dev) (v_index th) with
      | Some l => Some (set_thread t (set_pc L210 (set_location l th)) w)
      | None => crash IndexError
      end
  | L210 =>   (* script = self.device.scripts[index] *)
      match py_index (scripts dev) (v_index th) with
      | Some s => Some (set_thread t (set_pc L213 (set_script (Some s) th)) w)
      | None => crash IndexError
      end
  | L213 =>   (* Device.locks[location].acquire() *)
      match acquire_location t (v_location th) w with
      | Returns w' => Some (set_thread t (set_pc L215 th) w')
      | Blocks => None
      | Raises e => crash e
      end
  | L215 =>   (* script_data = [] *)
      Some (set_thread t (set_pc L217 (set_script_data [] th)) w)
  | L217 =>   (* for device in self.device.neighbours: *)
      match neighbours dev with
      | Some ns => Some (set_thread t (set_pc L218 (set_iter ns th)) w)
      | None => crash TypeError
      end
  | L218 =>   (* data = device.get_data(location); append it if not None *)
      match v_iter th with
      | [] => goto L222
      | n :: rest =>
          nd ← devices w !! n;
          let '(data, nd') := get_data (v_location th) nd in
          Some (set_thread t
                  (set_iter rest
                     (set_script_data (append_if_present data (v_script_data th)) th))
                  (set_device n nd' w))
      end
  | L222 =>   (* data = self.device.get_data(location); append it if not None *)
      let '(data, dev') := get_data (v_location th) dev in
      Some (set_thread t
              (set_pc L226
                 (set_script_data (append_if_present data (v_script_data th)) th))
              (set_device d dev' w))
  | L226 =>   (* if script_data != []: *)
      match v_script_data th with
      | [] => goto L236
      | _ :: _ => goto L228
      end
  | L228 =>   (* result = script.run(script_data) *)
      s ← v_script th;
      Some (set_thread t
              (set_pc L231 (set_result (Some (s (v_script_data th))) th)) w)
  | L231 =>   (* for device in self.device.neighbours: *)
      match neighbours dev with
      | Some ns => Some (set_thread t (set_pc L232 (set_iter ns th)) w)
      | None => crash TypeError
      end
  | L232 =>   (* device.set_data(location, result) *)
      match v_iter th with
      | [] => goto L234
      | n :: rest =>
          nd ← devices w !! n;
          r ← v_result th;
          Some (set_thread t (set_iter rest th)
                  (set_device n (set_data (v_location th) r nd) w))
      end
  | L234 =>   (* self.device.set_data(location, result) *)
      r ← v_result th;
      Some (set_thread t (set_pc L236 th)
              (set_device d (set_data (v_location th) r dev) w))
  | L236 =>   (* Device.locks[location].release() *)
      match release_location (v_location th) w with
      | Returns w' => Some (set_thread t (set_pc L199 th) w')
      | Blocks => None
      | Raises e => crash e
      end
  | L239 p =>   (* self.device.bar_thr.wait() *)
      '(th', b) ← call_wait t th p (bar_thr dev) L239 L241;
      Some (set_thread t th' (set_device d (set_bar_thr b dev) w))
  | L241 =>   (* if self.first == 1: *)
      if first th =? 1 then goto L242 else goto (L244 W20)
  | L242 =>   (* self.device.event_neighbours.clear() *)
      Some (set_thread t (set_pc L243 th)
              (set_device d (set_event_neighbours false dev) w))
  | L243 =>   (* self.device.timepoint_done.clear() *)
      Some (set_thread t (set_pc (L244 W20) th)
              (set_device d (set_timepoint_done false dev) w))
  | L244 p =>   (* self.device.bar_thr.wait() *)
      '(th', b) ← call_wait t th p (bar_thr dev) L244 L246;
      Some (set_thread t th' (set_device d (set_bar_thr b dev) w))
  | L246 =>   (* if self.first == 1: *)
      if first th =? 1 then goto (L247 W20) else goto L182
  | L247 p =>   (* Device.bariera_devices.wait() *)
      '(th', b) ← call_wait t th p (bariera_devices w) L247 L182;
      Some (set_thread t th' (set_bariera_devices b w))
  | Terminated => None
  | Crashed _ => None
  end.

(** What can happen in the system: a thread executes its next statement;
    the supervisor answers the [get_neighbours()] call of a thread at line
    184; the supervisor calls [assign_script] on a device. *)
Inductive action :=
| Run (t : nat)
| GetNeighbours (t : nat) (answer : option (list nat))
| AssignScript (d : nat) (script : option Script) (location : Z).

Definition exec (a : action) (w : World) : option World :=
  match a with
  | Run t => run_step t w
  | GetNeighbours t answer =>
      th ← threads w !! t;
      dev ← devices w !! th_device th;
      match pc th with
      | L184 =>
          Some (set_thread t (set_pc L185 th)
                  (set_device (th_device th) (set_neighbours answer dev) w))
      | _ => None
      end
  | AssignScript d script location =>
      dev ← devices w !! d;
      Some (set_device d (assign_script script location dev) w)
  end.

(** A run of the system: the actions of a trace, one after the other. *)
Fixpoint run_trace (tr : list action) (w : World) : option World :=
  match tr with
  | [] => Some w
  | a :: tr' => w' ← exec a w; run_trace tr' w'
  end.

(** Inside the script body of lines 215-236: after the location's lock was
    taken and before it is given back. *)
Definition in_body (p : PC) : bool :=
  match p with
  | L215 | L217 | L218 | L222 | L226 | L228 | L231 | L232 | L234 | L236 => true
  | _ => false
  end.

(** The lock object the registry holds for a location. *)
Definition location_lock (w : World) (location : Z) : option nat :=
  py_index (locks w) location.

(** Every thread inside a script body holds the lock of its location. *)
Definition body_holds_lock (w : World) : Prop :=
  ∀ t th, threads w !! t = Some th → in_body (pc th) = true →
          ∃ r, location_lock w (v_location th) = Some r ∧
               lock_store w !! r = Some (Some t).

(** A world before any thread has run: every thread is at the top of
    [run], every lock of the registry is unlocked and every device is as
    its constructor left it. *)
Definition fresh (w : World) : Prop :=
  (∀ t th, threads w !! t = Some th → pc th = L182) ∧
  (∀ r l, lock_store w !! r = Some l → l = None) ∧
  (∀ j dev, devices w !! j = Some dev →
            ∃ id readings, Device_init id readings = Returns dev).

(** The two parallel lists of a device have one length and
    [nr_scripturi] is that length. *)
Definition assignments_ok (d : Device) : Prop :=
  length (scripts d) = length (locations d) ∧
  nr_scripturi d = Z.of_nat (length (scripts d)).

(** What the lines of the claim loop know about the local [index]:
    nothing before it is assigned; that it is not negative from line 201
    on; that it is a position of the assignment list once line 205 has
    let the thread pass. *)
Definition index_ok (p : PC) (index nr : Z) : Prop :=
  match p with
  | L201 | L202 | L205 => 0 ≤ index
  | L209 | L210 | L213
  | L215 | L217 | L218 | L222 | L226 | L228 | L231 | L232 | L234 | L236 =>
      0 ≤ index < nr
  | _ => True
  end.


Definition cursor_ok (w : World) : Prop :=
  (∀ j dev, devices w !! j = Some dev →
            0 ≤ script_crt dev ∧ assignments_ok dev) ∧
  (∀ t th dev, threads w !! t = Some th →
               devices w !! th_device th = Some dev →
               index_ok (pc th) (v_index th) (nr_scripturi dev)).

(** The assignment lists are the same before and after. *)
Definition same_assignments (d1 d2 : Device) : Prop :=
  scripts d2 = scripts d1 ∧ locations d2 = locations d1 ∧
  nr_scripturi d2 = nr_scripturi d1.

(** The key set of [sensor_data] is the same before and after. *)
Definition same_keys (d1 d2 : Device) : Prop :=
  dom (sensor_data d1) = dom (sensor_data d2).

(** A statement of a thread changes a reading of a location only inside
    the script body, and then only the reading of the thread's location. *)
Definition writes_own_location (th : Thread) (dev dev' : Device) : Prop :=
  ∀ l, sensor_data dev' !! l ≠ sensor_data dev !! l →
       in_body (pc th) = true ∧ l = v_location th.


(** The cursor never is negative and the lists stay aligned. *)
Definition device_ok (dev : Device) : Prop :=
  0 ≤ script_crt dev ∧ assignments_ok dev.

(** [R th] relates a device before and after a statement of thread [th]:
    reflexive, and closed under each write a thread performs on a device.
    [set_data] is only ever called inside the script body, with the
    location the thread holds. *)
Record thread_writes (R : Thread → Device → Device → Prop)
    : Prop := {
  tw_refl : ∀ th dev, R th dev dev;
  tw_reset : ∀ th dev, pc th = L185 → R th dev (set_script_crt 0 dev);
  tw_claim : ∀ th dev,
    pc th = L201 → R th dev (set_script_crt (script_crt dev + 1) dev);
  tw_event_neighbours : ∀ th dev f, R th dev (set_event_neighbours f dev);
  tw_timepoint_done : ∀ th dev f, R th dev (set_timepoint_done f dev);
  tw_lock_script : ∀ th dev l, R th dev (set_lock_script l dev);
  tw_bar_thr : ∀ th dev b, R th dev (set_bar_thr b dev);
  tw_set_data : ∀ th dev data,
    in_body (pc th) = true → R th dev (set_data (v_location th) data dev)
}.

End Model.

Arguments Script : clear implicits.
Arguments Device : clear implicits.
Arguments Thread : clear implicits.
Arguments World : clear implicits.
Arguments action : clear implicits.


(** ** More of device.py: the claim lock, the assigned pair, the script
    body as a whole *)

Section ModelMore.

Context {Data : Type}.

(** Between the acquire of line 199 and the release of line 202. *)
Definition in_claim (p : PC) : bool :=
  match p with
  | L200 | L201 | L202 => true
  | _ => false
  end.

(** Every thread between lines 200 and 202 holds the [lock_script] of its
    device. *)
Definition claim_holds_lock (w : World Data) : Prop :=
  ∀ t th, threads w !! t = Some th → in_claim (pc th) = true →
          ∃ dev, devices w !! th_device th = Some dev ∧
                 lock_script dev = Some t.

(** The locals [location] and [script] of a thread hold the pair the
    device received at position [index]: the location from line 210 on,
    the script from line 213 on. *)
Definition pair_ok (th : Thread Data) (dev : Device Data) : Prop :=
  match pc th with
  | L210 => locations dev !! Z.to_nat (v_index th) = Some (v_location th)
  | L213
  | L215 | L217 | L218 | L222 | L226 | L228 | L231 | L232 | L234 | L236 =>
      locations dev !! Z.to_nat (v_index th) = Some (v_location th) ∧
      ∃ s, v_script th = Some s ∧
           scripts dev !! Z.to_nat (v_index th) = Some s
  | _ => True
  end.

Definition pairs_ok (w : World Data) : Prop :=
  cursor_ok w ∧
  ∀ t th dev, threads w !! t = Some th →
              devices w !! th_device th = Some dev → pair_ok th dev.

(** The device keeps what it was assigned: the lists only grow at the
    end. *)
Definition assignments_extended (d1 d2 : Device Data) : Prop :=
  (∃ more, scripts d2 = scripts d1 ++ more) ∧
  (∃ more, locations d2 = locations d1 ++ more).

(** *** Lines 215-236 as one function

    What the script body does to the device store when no other thread
    writes a reading of the location meanwhile (the lock of the location
    keeps them out). *)

(** Lines 217-224: the readings the devices [refs] have for the
    location, in the order of [refs]; a device that does not know the
    location contributes nothing. *)
Definition readings (location : Z) (ds : list (Device Data))
    (refs : list nat) : list Data :=
  omap (λ n, dev ← ds !! n; (get_data location dev).1) refs.

(** Lines 231-234: [set_data(location, result)] on each device of
    [refs], one after the other. *)
Definition write_all (location : Z) (result : Data)
    (ds : list (Device Data)) (refs : list nat) : list (Device Data) :=
  foldl (λ ds n, match ds !! n with
                 | Some dev => <[n := set_data location result dev]> ds
                 | None => ds
                 end) ds refs.

(** Lines 215-236 for the device [self] with the neighbours [ns]. *)
Definition script_body (script : Script Data) (location : Z) (self : nat)
    (ns : list nat) (ds : list (Device Data)) : list (Device Data) :=
  match readings location ds (ns ++ [self]) with
  | [] => ds
  | x :: data => write_all location (script (x :: data)) ds (ns ++ [self])
  end.

(** The number of statements the body takes: the two loops are walked
    only when there is a reading. *)
Definition script_body_steps (location : Z) (self : nat) (ns : list nat)
    (ds : list (Device Data)) : nat :=
  match readings location ds (ns ++ [self]) with
  | [] => length ns + 6
  | _ :: _ => 2 * length ns + 10
  end.

(** *** The threads of a device: start, end and [shutdown] *)

(** [DeviceThread.__init__(self, device, first)]: the two fields; the
    thread enters [run] at its top when it is started. *)
Definition DeviceThread_init (device : nat) (first : Z) : Thread Data :=
  mkThread device first L182 0 0 None [] None [].

(** [thread.start()]: the thread enters the thread table under a key no
    thread has yet; the key is the reference to the thread object. *)
Definition start (th : Thread Data) (w : World Data) : nat * World Data :=
  let t := stdpp.base.fresh (dom (threads w)) in (t, set_thread t th w).

(** Lines 79-83: [for _ in range(n)] a [DeviceThread(self, 0)] is
    created, appended to [self.threads] and started. *)
Fixpoint start_workers (n : nat) (device : nat) (w : World Data)
    : list nat * World Data :=
  match n with
  | O => ([], w)
  | S k =>
      let '(t, w1) := start (DeviceThread_init device 0) w in
      let '(ts, w2) := start_workers k device w1 in
      (t :: ts, w2)
  end.

(** The fields [self.thread] and [self.threads] of a [Device]. *)
Record DeviceThreads := mkDeviceThreads {
  dt_thread : nat;
  dt_threads : list nat
}.

Definition all_threads (h : DeviceThreads) : list nat :=
  dt_thread h :: dt_threads h.

(** [Device(device_id, sensor_data, supervisor)] as a whole: the new
    object enters the object store, its fields are those of
    [Device_init], and lines 77-83 start its eight threads.  The result
    is the reference to the device, its two thread fields and the world
    after the call, when none of the threads it starts takes a step
    before the constructor returns. *)
Definition Device_new (device_id : Z) (sensor_data : gmap Z Data)
    (w : World Data) : outcome (nat * DeviceThreads * World Data) :=
  match Device_init device_id sensor_data with
  | Returns dev =>
      let d := length (devices w) in
      let w0 := set_devices (devices w ++ [dev]) w in
      let '(t, w1) := start (DeviceThread_init d 1) w0 in
      let '(ts, w2) := start_workers 7 d w1 in
      Returns (d, mkDeviceThreads t ts, w2)
  | Blocks => Blocks
  | Raises e => Raises e
  end.

(** The thread has left [run]: through the [break] of line 192 or with
    an exception. *)
Definition finished (p : PC) : bool :=
  match p with
  | Terminated | Crashed _ => true
  | _ => false
  end.

(** [thread.join()] in the state [w]: it returns once the thread has
    left [run] and blocks until then; joining a thread that was never
    started raises [RuntimeError]. *)
Definition join (t : nat) (w : World Data) : outcome unit :=
  match threads w !! t with
  | Some th => if finished (pc th) then Returns tt else Blocks
  | None => Raises RuntimeError
  end.

(** Lines 159-160: [for tthread in self.threads: tthread.join()]. *)
Definition joins (l : list nat) (w : World Data) : outcome unit :=
  foldr (λ t rest, match join t w with
                   | Returns _ => rest
                   | Blocks => Blocks
                   | Raises e => Raises e
                   end) (Returns tt) l.

(** [Device.shutdown(self)]: the joins of lines 158-160, one after the
    other, in the state [w].  A thread that has left [run] stays as it
    is, so a call that began in an earlier state has returned by the
    state [w] exactly when the joins return in [w]. *)
Definition shutdown (h : DeviceThreads) (w : World Data) : outcome unit :=
  match join (dt_thread h) w with
  | Returns _ => joins (dt_threads h) w
  | Blocks => Blocks
  | Raises e => Raises e
  end.

(** As long as this holds of device [j] no thread of the device has
    returned from [run]: the supervisor has not yet answered [None] to
    [get_neighbours()]. *)
Definition simulation_on (j : nat) (w : World Data) : Prop :=
  (∀ dev, devices w !! j = Some dev → neighbours dev ≠ None) ∧
  (∀ t th, threads w !! t = Some th → th_device th = j →
           pc th ≠ Terminated).

(** What a run leaves alone in a device and in a thread: the id of the
    device and the party count of its barrier; the device and the
    [first] flag of the thread. *)
Definition same_identity (d1 d2 : Device Data) : Prop :=
  device_id d2 = device_id d1 ∧
  num_threads (bar_thr d2) = num_threads (bar_thr d1).

Definition same_thread (th1 th2 : Thread Data) : Prop :=
  th_device th2 = th_device th1 ∧ first th2 = first th1.

(** The objects of [w2] are those of [w1]: the same threads, devices and
    locks, the same registry and the same party count of the barrier of
    the devices. *)
Definition same_objects (w1 w2 : World Data) : Prop :=
  locks w2 = locks w1 ∧
  length (lock_store w2) = length (lock_store w1) ∧
  num_threads (bariera_devices w2) = num_threads (bariera_devices w1) ∧
  length (devices w2) = length (devices w1) ∧
  (∀ j dev, devices w1 !! j = Some dev →
            ∃ dev', devices w2 !! j = Some dev' ∧ same_identity dev dev') ∧
  dom (threads w2) = dom (threads w1) ∧
  (∀ t th, threads w1 !! t = Some th →
           ∃ th', threads w2 !! t = Some th' ∧ same_thread th th').

End ModelMore.

(** *** Names *)

From stdpp Require strings pretty.

Module Names.

Import stdpp.strings stdpp.pretty.

(** [Device.__str__(self)]: ["Device %d" % self.device_id], the id in
    decimal, with a minus sign when it is negative. *)
Definition Device_str {Data : Type} (d : Device Data) : string :=
  "Device " +:+ pretty (device_id d).

(** The [name] that line 175 gives to a thread of the device. *)
Definition DeviceThread_name {Data : Type} (d : Device Data) : string :=
  "Device Thread " +:+ pretty (device_id d).

End Names.

(** ** Concrete inputs

    Readings are integers here.  Two devices track location 0 with the
    readings 10 and 20; [average] is the script of the end-to-end
    scenario. *)

Definition average : Script Z :=
  λ values, foldr Z.add 0 values / Z.of_nat (length values).

Definition barrier1 : Barrier := mkBarrier 1 1 (mkCondition None []).
Definition barrier2 : Barrier := mkBarrier 2 2 (mkCondition None []).
Definition barrier8 : Barrier := mkBarrier 8 8 (mkCondition None []).

(** The devices as [Device.__init__] leaves them. *)
Definition device0 : Device Z :=
  mkDevice 0 {[ 0 := 10 ]} [] [] 0 0 false (Some []) false None barrier8.

Definition device1 : Device Z :=
  mkDevice 1 {[ 0 := 20 ]} [] [] 0 0 false (Some []) false None barrier8.

(** A thread as [DeviceThread.__init__] leaves it, about to enter [run]. *)
Definition thread_of (d : nat) (first : Z) : Thread Z :=
  mkThread d first L182 0 0 None [] None [].

(** The class attributes as the class body leaves them, two devices, no
    thread yet. *)
Definition world0 : World Z :=
  mkWorld [device0; device1] [] [] (mkBarrier 0 0 (mkCondition None [])) ∅.

(** A registry of three unlocked locks. *)
Definition world3 : World Z :=
  mkWorld [device0; device1] [None; None; None] [0; 1; 2]%nat barrier2 ∅.

(** [n] statements of thread [t]; [n] statements of each thread of [ts],
    one thread after the other. *)
Definition runs (t n : nat) : list (action Z) := replicate n (Run t).

Definition each (ts : list nat) (n : nat) : list (action Z) :=
  ts ≫= (λ t, runs t n).

(** One device with its eight threads: thread 0 is the one with
    [first == 1], threads 1 to 7 are the others.  The registry has one
    lock; the barrier of the devices is [Barrier(1)]. *)
Definition workers : list nat := [1; 2; 3; 4; 5; 6; 7]%nat.

Definition world8 : World Z :=
  mkWorld [device0] [None] [0%nat] barrier1
    (list_to_map ((0%nat, thread_of 0 1)
                    :: ((λ t, (t, thread_of 0 0)) <$> workers))).

(** The start of a round with no neighbour: thread 0 asks the supervisor,
    sets the cursor to zero and raises the event (lines 182-191); the
    others pass the event (lines 182-191).  All end at line 195. *)
Definition round_begin : list (action Z) :=
  Run 0 :: GetNeighbours 0 (Some []) :: runs 0 4 ++ each workers 3.

(** A whole first round in which the supervisor assigns one script, for
    location 0.  Thread 0 claims index 0, runs the script, claims index 1
    and leaves the loop (24 statements), then waits in the barrier (4);
    the others claim an index past the end and enter the barrier, thread 7
    last (it notifies); all leave the barrier; thread 0 clears the two
    events; second barrier; thread 0 passes the barrier of the devices.
    All end at line 182. *)
Definition round_one : list (action Z) :=
  round_begin
  ++ [AssignScript 0 (Some average) 0; AssignScript 0 None 0]
  ++ runs 0 24 ++ runs 0 4
  ++ each [1; 2; 3; 4; 5; 6]%nat 10 ++ runs 7 12
  ++ each [0; 1; 2; 3; 4; 5; 6]%nat 2
  ++ runs 0 3 ++ each workers 1
  ++ each [0; 1; 2; 3; 4; 5; 6]%nat 4 ++ runs 7 6
  ++ each [0; 1; 2; 3; 4; 5; 6]%nat 2
  ++ runs 0 7 ++ each workers 1.


(** One device with a single thread that claims while no script has been
    assigned: lines 182-191, the end of the assignment, lines 195-201. *)
Definition world1 : World Z :=
  mkWorld [device0] [None] [0%nat] barrier1 {[ 0%nat := thread_of 0 1 ]}.

Definition claim_on_empty : list (action Z) :=
  Run 0 :: GetNeighbours 0 (Some []) :: runs 0 4
  ++ [AssignScript 0 None 0] ++ runs 0 4.

(** Two devices, neighbours of each other, one thread each, one script
    each for location 0.  Thread 0 takes the lock of location 0 and
    enters the script body (9 statements from line 195); thread 1 arrives
    at line 213 (8 statements). *)
Definition world2 : World Z :=
  mkWorld [device0; device1] [None] [0%nat] barrier2
    {[ 0%nat := thread_of 0 1; 1%nat := thread_of 1 1 ]}.

Definition contend : list (action Z) :=
  Run 0 :: GetNeighbours 0 (Some [1%nat]) :: runs 0 4
  ++ Run 1 :: GetNeighbours 1 (Some [0%nat]) :: runs 1 4
  ++ [AssignScript 0 (Some average) 0; AssignScript 0 None 0;
      AssignScript 1 (Some average) 0; AssignScript 1 None 0]
  ++ runs 0 9 ++ runs 1 8.

(** What a run shows of thread [t] and of device [d]: the line of the
    thread, its claimed index, the cursor of the device and the number of
    scripts it holds. *)
Definition observe (t d : nat) (w : World Z) : option (PC * Z * Z * nat) :=
  th ← threads w !! t;
  dev ← devices w !! d;
  Some (pc th, v_index th, script_crt dev, length (assignments dev)).

(** Two threads on a barrier of two parties: thread 0 arrives and sleeps,
    thread 1 arrives and stands at [notify_all]. *)
Definition advances (t n : nat) : list barrier_action :=
  replicate n (Advance t).

Definition two_arrivals : list barrier_action :=
  Call 0 :: advances 0 4 ++ Call 1 :: advances 1 3.


(** A concrete world is fresh: the thread table and the two stores are
    walked entry by entry. *)
Ltac solve_fresh :=
  split_and!;
  [ apply map_Forall_lookup; simpl;
    repeat (apply map_Forall_insert_2; [reflexivity|]); apply map_Forall_empty
  | apply Forall_lookup; by repeat constructor
  | apply Forall_lookup; repeat constructor; by eexists _, _ ].


(** The run [contend] continued: thread 0 walks the script body up to the
    release of line 236 (11 statements from line 215), thread 1 still
    stands at line 213. *)
Definition contend_release : list (action Z) := contend ++ runs 0 11.

(** Device 0 with one script for location 0 and device 1 as its only
    neighbour; its thread has claimed the script, holds the lock of
    location 0 and stands at line 215. *)
Definition device0_ready : Device Z :=
  mkDevice 0 {[ 0 := 10 ]} [average] [0] 1 1 true (Some [1%nat]) true None
    barrier8.

Definition thread_at_215 : Thread Z :=
  mkThread 0 1 L215 0 0 (Some average) [] None [].

Definition world_at_215 : World Z :=
  mkWorld [device0_ready; device1] [Some 0%nat] [0%nat] barrier2
    {[ 0%nat := thread_at_215 ]}.

(** The end of the simulation for [world1]: the supervisor answers [None]
    to the only thread, which then returns from [run]. *)
Definition simulation_end : list (action Z) :=
  Run 0 :: GetNeighbours 0 None :: runs 0 4.

Definition world1_ended : World Z :=
  mkWorld [mkDevice 0 {[ 0 := 10 ]} [] [] 0 0 false None true None barrier8]
    [None] [0%nat] barrier1
    {[ 0%nat := mkThread 0 1 Terminated 0 0 None [] None [] ]}.

(** A device whose thread 0 has called [get_neighbours()] (line 184)
    while thread 1 waits for the event at line 189. *)
Definition thread_asking : Thread Z := mkThread 0 1 L184 0 0 None [] None [].

Definition thread_waiting : Thread Z := mkThread 0 0 L189 0 0 None [] None [].

Definition world_asking : World Z :=
  mkWorld [device0] [None] [0%nat] barrier1
    {[ 0%nat := thread_asking; 1%nat := thread_waiting ]}.

(** The class attributes as the class body leaves them, before any
    device exists. *)
Definition world_empty : World Z :=
  mkWorld [] [] [] (mkBarrier 0 0 (mkCondition None [])) ∅.
(** ** Properties *)

Section Properties.

Context {Data : Type}.
Implicit Types (d dev : Device Data) (w : World Data) (th : Thread Data).
Implicit Types (s : Script Data) (location : Z) (data : Data).

(** *** Device.assign_script, Device.get_data, Device.set_data *)

Lemma Device_init_assignments_ok id (sd : gmap Z Data) d :
  Device_init id sd = Returns d → assignments_ok d.
Proof. intros [= <-]. by split. Qed.

Lemma assign_script_assignments_ok (script : option (Script Data)) location d :
  assignments_ok d → assignments_ok (assign_script script location d).
Proof.
  intros [Hlen Hnr]. destruct script as [s|]; [|done].
  split; simpl; rewrite !length_app; simpl; lia.
Qed.

Lemma zip_snoc {A B} (xs : list A) (ys : list B) x y :
  length xs = length ys → zip (xs ++ [x]) (ys ++ [y]) = zip xs ys ++ [(x, y)].
Proof.
  revert ys. induction xs as [|a xs IH]; intros [|b ys] Hlen; simplify_eq/=; [done|].
  by rewrite IH.
Qed.

(** C8. [assign_script(script, location)] with a script appends the pair
    (script, location) to the end of the assignment list (each of the two
    parallel lists gets its component, the counter grows by one) and
    leaves the assignment-complete signal as it was; with [None] it sets
    the signal and leaves the assignment list as it was, and a thread
    that waits for the signal at line 195 of a device proceeds once the
    supervisor has made that call on the device. *)
Theorem assign_script_spec d s location :
  length (scripts d) = length (locations d) →
  (assignments (assign_script (Some s) location d)
     = assignments d ++ [(s, location)] ∧
   scripts (assign_script (Some s) location d) = scripts d ++ [s] ∧
   locations (assign_script (Some s) location d) = locations d ++ [location] ∧
   nr_scripturi (assign_script (Some s) location d) = nr_scripturi d + 1 ∧
   timepoint_done (assign_script (Some s) location d) = timepoint_done d) ∧
  (timepoint_done (assign_script None location d) = true ∧
   assignments (assign_script None location d) = assignments d ∧
   scripts (assign_script None location d) = scripts d ∧
   locations (assign_script None location d) = locations d ∧
   nr_scripturi (assign_script None location d) = nr_scripturi d) ∧
  (∀ w (t i : nat) th,
     threads w !! t = Some th → pc th = L195 → th_device th = i →
     devices w !! i = Some d →
     ∃ w1, exec (AssignScript i None location) w = Some w1 ∧
           run_step t w1 = Some (set_thread t (set_pc L199 th) w1)).
Proof.
  intros Hlen. split_and!; try done.
  - unfold assignments; simpl. by apply zip_snoc.
  - intros w t i th Hth Hpc Hi Hdev. simpl. rewrite Hdev; simpl.
    eexists. split; [done|].
    unfold run_step; simpl. rewrite Hth; simpl. rewrite Hi.
    rewrite list_lookup_insert_eq by (by eapply lookup_lt_Some).
    simpl. by rewrite Hpc.
Qed.

(** *** Sensor data *)

Lemma set_data_dom location data d :
  dom (sensor_data (set_data location data d)) = dom (sensor_data d).
Proof.
  unfold set_data. destruct (decide _) as [Hin|Hin]; [|done]. simpl.
  apply dom_insert_lookup_L. by apply elem_of_dom.
Qed.

Lemma assign_script_sensor_data (script : option (Script Data)) location d :
  sensor_data (assign_script script location d) = sensor_data d.
Proof. by destruct script. Qed.

(** C10. [get_data(location)] returns the device's reading for the
    location when the location is a key of [sensor_data] and [None] when
    it is not; the device after the call is the device before it. *)
Theorem get_data_spec d location :
  (∀ x, sensor_data d !! location = Some x →
        (get_data location d).1 = Some x) ∧
  (location ∉ dom (sensor_data d) → (get_data location d).1 = None) ∧
  (get_data location d).2 = d.
Proof.
  unfold get_data. split_and!; simpl; [|by intros; destruct (decide _)|done].
  intros x Hx. destruct (decide _) as [Hin|Hin]; [done|].
  exfalso. apply Hin, elem_of_dom. eauto.
Qed.


(** *** What a step does to the devices *)

Lemma insert_device_lookup (R : Device Data → Device Data → Prop)
    (ds : list (Device Data)) i j dev dev0 dev' :
  (∀ x, R x x) →
  ds !! i = Some dev0 → R dev0 dev' →
  ds !! j = Some dev →
  ∃ dev2, <[i := dev']> ds !! j = Some dev2 ∧ R dev dev2.
Proof.
  intros Hrefl Hi HR Hj. destruct (decide (i = j)) as [->|Hne].
  - exists dev'. rewrite list_lookup_insert_eq; [|by eapply lookup_lt_Some].
    by simplify_eq.
  - exists dev. by rewrite list_lookup_insert_ne.
Qed.

Lemma acquire_location_devices t location w w' :
  acquire_location t location w = Returns w' → devices w' = devices w.
Proof.
  unfold acquire_location. repeat case_match; naive_solver.
Qed.

Lemma release_location_devices location w w' :
  release_location location w = Returns w' → devices w' = devices w.
Proof.
  unfold release_location. repeat case_match; naive_solver.
Qed.

Lemma run_step_devices R t w w' th :
  thread_writes R →
  run_step t w = Some w' →
  threads w !! t = Some th →
  ∀ j dev, devices w !! j = Some dev →
           ∃ dev2, devices w' !! j = Some dev2 ∧ R th dev dev2.
Proof.
  intros HR Hstep Hth j dev Hj.
  pose proof (tw_refl R HR th) as Hrefl.
  unfold run_step in Hstep. rewrite Hth in Hstep. simpl in Hstep.
  destruct (devices w !! th_device th) as [dev0|] eqn:Hdev; [|done];
    simpl in Hstep.
  destruct (pc th) eqn:Hpc; unfold call_wait in Hstep;
    repeat case_match; simplify_option_eq;
    repeat match goal with
      | H : acquire_location _ _ _ = Returns _ |- _ =>
          apply acquire_location_devices in H; rewrite H
      | H : release_location _ _ = Returns _ |- _ =>
          apply release_location_devices in H; rewrite H
      end;
    try (by eauto);
    try (by (eapply (insert_device_lookup (R th)); eauto; destruct HR; eauto));
    eapply (insert_device_lookup (R th)); eauto;
    first [ apply (tw_set_data R HR); by rewrite Hpc
          | by apply (tw_reset R HR) | by apply (tw_claim R HR) ].
Qed.

Lemma exec_devices (R : Device Data → Device Data → Prop) (a : action Data) w w' :
  thread_writes (λ _, R) →
  (∀ dev n, R dev (set_neighbours n dev)) →
  (∀ dev script location, R dev (assign_script script location dev)) →
  exec a w = Some w' →
  ∀ j dev, devices w !! j = Some dev →
           ∃ dev2, devices w' !! j = Some dev2 ∧ R dev dev2.
Proof.
  intros HR Hn Ha Hexec j dev Hj.
  assert (∀ x, R x x) as Hrefl.
  { intros x. apply (tw_refl _ HR (mkThread 0 0 L182 0 0 None [] None [])). }
  destruct a as [t|t answer|i script location].
  - simpl in Hexec. destruct (threads w !! t) as [th|] eqn:Hth.
    + by eapply (run_step_devices (λ _, R)).
    + unfold run_step in Hexec. by rewrite Hth in Hexec.
  - simpl in Hexec.
    destruct (threads w !! t) as [th|] eqn:Hth; [|done]; simpl in Hexec.
    destruct (devices w !! th_device th) as [dev0|] eqn:Hdev; [|done];
      simpl in Hexec.
    destruct (pc th); simplify_eq/=.
    by eapply (insert_device_lookup R).
  - simpl in Hexec. simplify_option_eq.
    by eapply (insert_device_lookup R).
Qed.

Lemma same_keys_thread_writes : thread_writes (Data:=Data) (λ _, same_keys).
Proof.
  split; try done. intros th dev data _. unfold same_keys.
  by rewrite set_data_dom.
Qed.

(** C9. [set_data(location, value)] does nothing when the location is not
    a key of the device's [sensor_data]; otherwise it overwrites the
    reading of that location and leaves the reading of every other
    location as it was.  No operation adds or removes a key: neither
    [set_data], nor any statement a thread executes, nor any call of the
    supervisor changes the key set of any device. *)
Theorem set_data_spec d location data :
  (location ∉ dom (sensor_data d) → set_data location data d = d) ∧
  (location ∈ dom (sensor_data d) →
     sensor_data (set_data location data d) !! location = Some data) ∧
  (∀ other, other ≠ location →
     sensor_data (set_data location data d) !! other
       = sensor_data d !! other) ∧
  dom (sensor_data (set_data location data d)) = dom (sensor_data d) ∧
  (∀ (a : action Data) w w' j dev,
     exec a w = Some w' → devices w !! j = Some dev →
     ∃ dev', devices w' !! j = Some dev' ∧
             dom (sensor_data dev') = dom (sensor_data dev)).
Proof.
  split_and!.
  - intros Hin. unfold set_data. by destruct (decide _).
  - intros Hin. unfold set_data. destruct (decide _); [|done].
    simpl. by rewrite lookup_insert_eq.
  - intros other Hne. unfold set_data. destruct (decide _); [|done].
    simpl. by rewrite lookup_insert_ne.
  - apply set_data_dom.
  - intros a w w' j dev Hexec Hj.
    assert (∀ dev0 (script : option (Script Data)) loc,
              same_keys dev0 (assign_script script loc dev0)) as Hassign.
    { intros dev0 script loc. unfold same_keys.
      by rewrite assign_script_sensor_data. }
    destruct (exec_devices same_keys a w w' same_keys_thread_writes
                (λ _ _, eq_refl) Hassign Hexec j dev Hj)
      as (dev' & Hdev' & Hkeys).
    by exists dev'.
Qed.

(** *** Device.locks[location] *)

Lemma py_index_out_of_range {A} (l : list A) (i : Z) :
  Z.of_nat (length l) ≤ i ∨ i < - Z.of_nat (length l) → py_index l i = None.
Proof.
  intros Hi. unfold py_index. repeat case_match; zbool; try done; try lia.
  apply lookup_ge_None. lia.
Qed.

Lemma py_index_negative {A} (l : list A) (i : Z) :
  - Z.of_nat (length l) ≤ i < 0 →
  py_index l i = py_index l (i + Z.of_nat (length l)).
Proof.
  intros Hi. unfold py_index. repeat case_match; zbool; try done; lia.
Qed.

(** C5 (as the code has it).  [Device.locks[location].acquire()] raises
    [IndexError] when the location is at or above the size of the registry
    or below minus that size; the thread that executes line 213 with
    such a location ends with that exception and nothing else changes.
    For a negative location from minus the size on, Python's indexing
    counts from the end, and the lock concerned is that of
    location + size. *)
Theorem acquire_location_out_of_range (t : nat) location w :
  (Z.of_nat (length (locks w)) ≤ location ∨
   location < - Z.of_nat (length (locks w)) →
   acquire_location t location w = Raises IndexError) ∧
  (- Z.of_nat (length (locks w)) ≤ location < 0 →
   acquire_location t location w
     = acquire_location t (location + Z.of_nat (length (locks w))) w) ∧
  (∀ th, threads w !! t = Some th → is_Some (devices w !! th_device th) →
         pc th = L213 → v_location th = location →
         Z.of_nat (length (locks w)) ≤ location ∨
         location < - Z.of_nat (length (locks w)) →
         run_step t w
           = Some (set_thread t (set_pc (Crashed IndexError) th) w)).
Proof.
  split_and!.
  - intros Hi. unfold acquire_location. by rewrite py_index_out_of_range.
  - intros Hi. unfold acquire_location. by rewrite py_index_negative.
  - intros th Hth [dev Hdev] Hpc Hloc Hi.
    unfold run_step. rewrite Hth; simpl. rewrite Hdev, Hpc; simpl.
    unfold acquire_location. rewrite Hloc.
    by rewrite py_index_out_of_range.
Qed.

(** *** Device.setup_devices *)

Lemma append_locks_spec (n : nat) (store : list (option nat)) (registry : list nat) :
  append_locks n store registry
  = (store ++ replicate n None, registry ++ seq (length store) n).
Proof.
  revert store registry. induction n as [|n IH]; intros store registry; simpl.
  - by rewrite !app_nil_r.
  - rewrite IH, length_app, <- !app_assoc. simpl.
    by rewrite Nat.add_1_r.
Qed.


Lemma setup_devices_empty (n_devices : nat) (num_locations : Z) w :
  locks w = [] →
  ∃ w', setup_devices n_devices num_locations w = Returns w' ∧
        locks w' = seq (length (lock_store w)) (Z.to_nat num_locations) ∧
        lock_store w'
          = lock_store w ++ replicate (Z.to_nat num_locations) None.
Proof.
  intros He. unfold setup_devices. simpl. rewrite He.
  rewrite append_locks_spec. eexists. split; [done|]. by simpl.
Qed.



(** *** The location locks: mutual exclusion *)

Lemma acquire_location_inv (t : nat) location w w' :
  acquire_location t location w = Returns w' →
  ∃ r, location_lock w location = Some r ∧
       lock_store w !! r = Some None ∧
       w' = set_lock_store (<[r := Some t]> (lock_store w)) w.
Proof.
  unfold acquire_location, location_lock, Lock_acquire.
  repeat case_match; intros; simplify_eq. eauto.
Qed.

Lemma release_location_inv location w w' :
  release_location location w = Returns w' →
  ∃ r, location_lock w location = Some r ∧
       w' = set_lock_store (<[r := None]> (lock_store w)) w.
Proof.
  unfold release_location, location_lock, Lock_release.
  repeat case_match; intros; simplify_eq. eauto.
Qed.

(** What one statement of a thread does to the locks of the registry:
    nothing, except line 213 (it takes the unlocked lock of the thread's
    location) and line 236 (it gives that lock back).  A thread enters
    the script body only through line 213 and keeps its location inside. *)
Lemma run_step_locks (t : nat) w w' :
  run_step t w = Some w' →
  ∃ th th',
    threads w !! t = Some th ∧
    threads w' = <[t := th']> (threads w) ∧
    locks w' = locks w ∧
    ((lock_store w' = lock_store w ∧
      (in_body (pc th') = true →
       in_body (pc th) = true ∧ v_location th' = v_location th)) ∨
     (pc th = L213 ∧ v_location th' = v_location th ∧
      ∃ r, location_lock w (v_location th) = Some r ∧
           lock_store w !! r = Some None ∧
           lock_store w' = <[r := Some t]> (lock_store w)) ∨
     (pc th = L236 ∧ in_body (pc th') = false ∧
      ∃ r, location_lock w (v_location th) = Some r ∧
           lock_store w' = <[r := None]> (lock_store w))).
Proof.
  intros Hstep. unfold run_step in Hstep.
  destruct (threads w !! t) as [th|] eqn:Hth; [|done]; simpl in Hstep.
  destruct (devices w !! th_device th) as [dev0|] eqn:Hdev; [|done];
    simpl in Hstep.
  exists th.
  destruct (pc th) eqn:Hpc; unfold call_wait in Hstep;
    repeat case_match; simplify_option_eq;
    try (eexists; split_and!; [done|done|done|];
         left; split; [done|]; simpl; rewrite ?Hpc; by auto).
  - (* line 213 *)
    match goal with H : acquire_location _ _ _ = _ |- _ =>
      apply acquire_location_inv in H as (r & Hr & Hfree & ->) end.
    eexists; split_and!; [done|done|done|].
    right; left. split_and!; [done|done|]. by exists r.
  - (* line 236 *)
    match goal with H : release_location _ _ = _ |- _ =>
      apply release_location_inv in H as (r & Hr & ->) end.
    eexists; split_and!; [done|done|done|].
    right; right. split_and!; [done|done|]. by exists r.
Qed.

Lemma body_holds_lock_fresh w : fresh w → body_holds_lock w.
Proof.
  intros (Hpc & _) t th Hth Hin. by rewrite (Hpc t th Hth) in Hin.
Qed.

Lemma body_holds_lock_run_step (t : nat) w w' :
  run_step t w = Some w' → body_holds_lock w → body_holds_lock w'.
Proof.
  intros Hstep Hinv.
  destruct (run_step_locks t w w' Hstep)
    as (th & th' & Hth & Hths & Hlocks & Hcases).
  intros u uh Hu Hbody. unfold location_lock. rewrite Hlocks, Hths in *.
  fold (location_lock w (v_location uh)).
  destruct Hcases as [(Hstore & Hsame) | [(Hpc & Hloc & r & Hr & Hfree & Hstore)
                                         | (Hpc & Hout & r & Hr & Hstore)]];
    rewrite Hstore.
  - (* the locks are untouched *)
    destruct (decide (u = t)) as [->|Hne].
    + rewrite lookup_insert_eq in Hu. simplify_eq.
      destruct (Hsame Hbody) as [Hb ->]. by apply Hinv.
    + rewrite lookup_insert_ne in Hu by done. by apply Hinv.
  - (* line 213: [t] takes the lock [r], which was unlocked *)
    destruct (decide (u = t)) as [->|Hne].
    + rewrite lookup_insert_eq in Hu. simplify_eq. rewrite Hloc.
      exists r. split; [done|].
      apply list_lookup_insert_eq. by eapply lookup_lt_Some.
    + rewrite lookup_insert_ne in Hu by done.
      destruct (Hinv u uh Hu Hbody) as (r' & Hr' & Hheld).
      exists r'. split; [done|].
      rewrite list_lookup_insert_ne; [done|]. intros ->. congruence.
  - (* line 236: [t] gives the lock [r] back *)
    destruct (decide (u = t)) as [->|Hne].
    + rewrite lookup_insert_eq in Hu. simplify_eq. congruence.
    + rewrite lookup_insert_ne in Hu by done.
      destruct (Hinv u uh Hu Hbody) as (r' & Hr' & Hheld).
      exists r'. split; [done|].
      rewrite list_lookup_insert_ne; [done|]. intros ->.
      assert (in_body (pc th) = true) as Hb by (by rewrite Hpc).
      destruct (Hinv t th Hth Hb) as (r2 & Hr2 & Hheld2).
      congruence.
Qed.

Lemma body_holds_lock_exec (a : action Data) w w' :
  exec a w = Some w' → body_holds_lock w → body_holds_lock w'.
Proof.
  destruct a as [t|t answer|i script location]; simpl.
  - apply body_holds_lock_run_step.
  - intros Hexec Hinv.
    destruct (threads w !! t) as [th|] eqn:Hth; [|done]; simpl in Hexec.
    destruct (devices w !! th_device th) as [dev0|] eqn:Hdev; [|done];
      simpl in Hexec.
    destruct (pc th) eqn:Hpc; simplify_eq/=.
    intros u uh Hu Hbody. simpl in *.
    destruct (decide (u = t)) as [->|Hne].
    + rewrite lookup_insert_eq in Hu. by simplify_eq.
    + rewrite lookup_insert_ne in Hu by done. by apply Hinv.
  - intros Hexec Hinv. simplify_option_eq. intros u uh Hu Hbody. by apply Hinv.
Qed.

Lemma body_holds_lock_run (tr : list (action Data)) w w' :
  run_trace tr w = Some w' → body_holds_lock w → body_holds_lock w'.
Proof.
  revert w. induction tr as [|a tr IH]; intros w Hrun Hinv; simpl in Hrun.
  - by simplify_eq.
  - destruct (exec a w) as [w1|] eqn:Hexec; [|done]. simpl in Hrun.
    eapply IH; [done|]. by eapply body_holds_lock_exec.
Qed.

Lemma writes_own_location_thread_writes :
  thread_writes (Data:=Data) writes_own_location.
Proof.
  split; unfold writes_own_location;
    try (intros;
         match goal with H : _ ≠ _ |- _ => exfalso; apply H; reflexivity end).
  intros th dev data Hbody l Hl. split; [done|].
  destruct (decide (l = v_location th)) as [|Hne]; [done|].
  exfalso. apply Hl. unfold set_data. destruct (decide _); [|done].
  simpl. by rewrite lookup_insert_ne.
Qed.

(** The local variables [script_data] and [result] of a thread change
    only inside the script body. *)
Lemma run_step_reads (t : nat) w w' th th' :
  run_step t w = Some w' →
  threads w !! t = Some th → threads w' !! t = Some th' →
  v_script_data th' ≠ v_script_data th ∨ v_result th' ≠ v_result th →
  in_body (pc th) = true.
Proof.
  intros Hstep Hth Hth' Hdiff.
  unfold run_step in Hstep. rewrite Hth in Hstep. simpl in Hstep.
  destruct (devices w !! th_device th) as [dev0|] eqn:Hdev; [|done];
    simpl in Hstep.
  destruct (pc th) eqn:Hpc; try done; exfalso;
    unfold call_wait in Hstep;
    repeat case_match; simplify_option_eq;
    repeat match goal with
      | H : acquire_location _ _ _ = Returns _ |- _ =>
          apply acquire_location_inv in H as (? & ? & ? & ->)
      | H : release_location _ _ = Returns _ |- _ =>
          apply release_location_inv in H as (? & ? & ->)
      end;
    simpl in Hth'; rewrite lookup_insert_eq in Hth'; simplify_eq;
    simpl in Hdiff; by destruct Hdiff.
Qed.

(** C1.  In every state the system reaches from a fresh start, whatever
    the number of devices and threads and whatever the interleaving: a
    thread that is inside the script body (lines 215-236, where the
    readings of the location are read, the script runs and the result is
    written back) holds the registry lock of its location, which it took
    at line 213 before the first read and gives back at line 236 after
    the last write; so no two threads are inside the body for the same
    location at the same time; a statement changes a reading of a
    location only when its thread is inside the body for that location;
    and the readings a thread has collected and the result of its script
    change only inside the body. *)
Theorem location_lock_mutual_exclusion (tr : list (action Data)) w0 w :
  fresh w0 → run_trace tr w0 = Some w →
  (∀ t th, threads w !! t = Some th → in_body (pc th) = true →
           ∃ r, location_lock w (v_location th) = Some r ∧
                lock_store w !! r = Some (Some t)) ∧
  (∀ t1 t2 th1 th2,
     threads w !! t1 = Some th1 → threads w !! t2 = Some th2 →
     in_body (pc th1) = true → in_body (pc th2) = true →
     v_location th1 = v_location th2 → t1 = t2) ∧
  (∀ t th w' j dev,
     threads w !! t = Some th → run_step t w = Some w' →
     devices w !! j = Some dev →
     ∃ dev', devices w' !! j = Some dev' ∧
             ∀ l, sensor_data dev' !! l ≠ sensor_data dev !! l →
                  in_body (pc th) = true ∧ l = v_location th) ∧
  (∀ t th w' th',
     threads w !! t = Some th → run_step t w = Some w' →
     threads w' !! t = Some th' →
     v_script_data th' ≠ v_script_data th ∨ v_result th' ≠ v_result th →
     in_body (pc th) = true).
Proof.
  intros Hfresh Hrun.
  assert (body_holds_lock w) as Hinv.
  { eapply body_holds_lock_run; [done|]. by apply body_holds_lock_fresh. }
  split_and!.
  - exact Hinv.
  - intros t1 t2 th1 th2 H1 H2 Hb1 Hb2 Hloc.
    destruct (Hinv t1 th1 H1 Hb1) as (r1 & Hr1 & Hheld1).
    destruct (Hinv t2 th2 H2 Hb2) as (r2 & Hr2 & Hheld2).
    rewrite Hloc in Hr1. congruence.
  - intros t th w' j dev Hth Hstep Hj.
    by eapply (run_step_devices writes_own_location);
      [apply writes_own_location_thread_writes|..].
  - intros t th w' th' Hth Hstep Hth' Hdiff.
    by eapply run_step_reads.
Qed.

(** *** The assignment list and the claim cursor *)

Lemma same_assignments_thread_writes : thread_writes (Data:=Data) (λ _, same_assignments).
Proof.
  split; try done. intros th dev data _. unfold same_assignments, set_data.
  by destruct (decide _).
Qed.


Lemma device_ok_thread_writes :
  thread_writes (Data:=Data) (λ _ dev dev', device_ok dev → device_ok dev').
Proof.
  split; unfold device_ok, assignments_ok; intros; simpl; try done;
    try (split; [lia|tauto]).
  unfold set_data. by destruct (decide _).
Qed.

Lemma index_ok_mono p index nr nr' :
  nr ≤ nr' → index_ok p index nr → index_ok p index nr'.
Proof. intros Hle. destruct p; simpl; try done; lia. Qed.

(** The acting thread after its statement: it stays on its device, and
    what its line knows about [index] holds. *)
Lemma run_step_index (t : nat) w w' th dev :
  run_step t w = Some w' →
  threads w !! t = Some th →
  devices w !! th_device th = Some dev →
  0 ≤ script_crt dev →
  index_ok (pc th) (v_index th) (nr_scripturi dev) →
  ∃ th', threads w' = <[t := th']> (threads w) ∧
         th_device th' = th_device th ∧
         index_ok (pc th') (v_index th') (nr_scripturi dev).
Proof.
  intros Hstep Hth Hdev Hcrt Hidx.
  unfold run_step in Hstep. rewrite Hth in Hstep. simpl in Hstep.
  rewrite Hdev in Hstep. simpl in Hstep.
  destruct (pc th) eqn:Hpc; unfold call_wait in Hstep;
    repeat case_match; simplify_option_eq;
    repeat match goal with
      | H : acquire_location _ _ _ = Returns _ |- _ =>
          apply acquire_location_inv in H as (? & ? & ? & ->)
      | H : release_location _ _ = Returns _ |- _ =>
          apply release_location_inv in H as (? & ? & ->)
      end;
    eexists; (split; [reflexivity|]); (split; [reflexivity|]);
    simpl in *; rewrite ?Hpc; simpl; zbool; try done; try lia.
Qed.

Lemma cursor_ok_fresh w : fresh w → cursor_ok w.
Proof.
  intros (Hpc & _ & Hdev). split.
  - intros j dev Hj. destruct (Hdev j dev Hj) as (id & sd & [= <-]).
    by repeat split.
  - intros t th dev Hth _. by rewrite (Hpc t th Hth).
Qed.

Lemma cursor_ok_run_step (t : nat) w w' :
  run_step t w = Some w' → cursor_ok w → cursor_ok w'.
Proof.
  intros Hstep [Hdevs Hths].
  destruct (threads w !! t) as [th|] eqn:Hth;
    [|by unfold run_step in Hstep; rewrite Hth in Hstep].
  destruct (devices w !! th_device th) as [dev|] eqn:Hdev;
    [|by unfold run_step in Hstep; rewrite Hth in Hstep; simpl in Hstep;
         rewrite Hdev in Hstep].
  destruct (run_step_index t w w' th dev Hstep Hth Hdev)
    as (th' & Hthreads & Hsame & Hidx);
    [by destruct (Hdevs _ _ Hdev)|by eapply Hths|].
  assert (∀ j d2, devices w' !! j = Some d2 →
            ∃ d1, devices w !! j = Some d1 ∧ same_assignments d1 d2 ∧
                  (device_ok d1 → device_ok d2)) as Hback.
  { intros j d2 Hj.
    destruct (devices w !! j) as [d1|] eqn:Hj1.
    - exists d1. split; [done|].
      destruct (run_step_devices _ t w w' th
                  same_assignments_thread_writes Hstep Hth j d1 Hj1)
        as (d2' & Hj2 & Hsa).
      destruct (run_step_devices _ t w w' th
                  device_ok_thread_writes Hstep Hth j d1 Hj1)
        as (d2'' & Hj2' & Hok).
      by simplify_eq.
    - exfalso. apply lookup_ge_None in Hj1.
      apply lookup_lt_Some in Hj.
      assert (length (devices w') = length (devices w)) as Hlen.
      { clear -Hstep. unfold run_step in Hstep.
        destruct (threads w !! t) as [th|]; [|done]; simpl in Hstep.
        destruct (devices w !! th_device th) as [dev|]; [|done];
          simpl in Hstep.
        destruct (pc th); unfold call_wait in Hstep;
          repeat case_match; simplify_option_eq;
          repeat match goal with
            | H : acquire_location _ _ _ = Returns _ |- _ =>
                apply acquire_location_devices in H; rewrite H
            | H : release_location _ _ = Returns _ |- _ =>
                apply release_location_devices in H; rewrite H
            end;
          simpl; by rewrite ?length_insert. }
      lia. }
  split.
  - intros j d2 Hj. destruct (Hback j d2 Hj) as (d1 & Hj1 & _ & Hok).
    by apply Hok, (Hdevs j).
  - intros u uh d2 Hu Hd2. rewrite Hthreads in Hu.
    destruct (decide (u = t)) as [->|Hne].
    + rewrite lookup_insert_eq in Hu. simplify_eq. rewrite Hsame in Hd2.
      destruct (Hback _ d2 Hd2) as (d1 & Hj1 & (_ & _ & Hnr) & _).
      simplify_eq. by rewrite Hnr.
    + rewrite lookup_insert_ne in Hu by done.
      destruct (Hback _ d2 Hd2) as (d1 & Hj1 & (_ & _ & Hnr) & _).
      rewrite Hnr. by eapply Hths.
Qed.

Lemma cursor_ok_insert_device w i dev0 dev' (ths : gmap nat (Thread Data)) :
  cursor_ok w →
  devices w !! i = Some dev0 →
  device_ok dev' →
  nr_scripturi dev0 ≤ nr_scripturi dev' →
  (∀ t th, ths !! t = Some th →
           threads w !! t = Some th ∨ index_ok (pc th) (v_index th) 0 ) →
  cursor_ok (mkWorld (<[i := dev']> (devices w)) (lock_store w) (locks w)
               (bariera_devices w) ths).
Proof.
  intros [Hdevs Hths] Hi Hok Hnr Hthreads. split; simpl.
  - intros j d2 Hj. destruct (decide (i = j)) as [->|Hne].
    + rewrite list_lookup_insert_eq in Hj by (by eapply lookup_lt_Some).
      by simplify_eq.
    + rewrite list_lookup_insert_ne in Hj by done. by apply (Hdevs j).
  - intros t th d2 Ht Hd2.
    destruct (Hthreads t th Ht) as [Hold|Hnew].
    + destruct (decide (i = th_device th)) as [->|Hne].
      * rewrite list_lookup_insert_eq in Hd2 by (by eapply lookup_lt_Some).
        simplify_eq. eapply index_ok_mono; [done|]. by eapply Hths.
      * rewrite list_lookup_insert_ne in Hd2 by done. by eapply Hths.
    + revert Hnew. destruct (pc th); simpl; try done; lia.
Qed.

Lemma cursor_ok_exec (a : action Data) w w' :
  exec a w = Some w' → cursor_ok w → cursor_ok w'.
Proof.
  destruct a as [t|t answer|i script location]; simpl.
  - apply cursor_ok_run_step.
  - intros Hexec Hinv.
    destruct (threads w !! t) as [th|] eqn:Hth; [|done]; simpl in Hexec.
    destruct (devices w !! th_device th) as [dev0|] eqn:Hdev; [|done];
      simpl in Hexec.
    destruct (pc th) eqn:Hpc; simplify_eq/=.
    unfold set_thread, set_device, set_devices; simpl.
    eapply cursor_ok_insert_device; eauto.
    + by destruct Hinv as [Hdevs _]; apply (Hdevs _ _ Hdev).
    + simpl. lia.
    + intros u uh Hu. destruct (decide (u = t)) as [->|Hne].
      * rewrite lookup_insert_eq in Hu. simplify_eq. by right.
      * rewrite lookup_insert_ne in Hu by done. by left.
  - intros Hexec Hinv. simplify_option_eq.
    match goal with H : devices w !! i = Some ?d |- _ => rename d into dev0 end.
    unfold set_device, set_devices; simpl.
    eapply cursor_ok_insert_device; eauto.
    + destruct Hinv as [Hdevs _]. destruct (Hdevs _ _ Heqo) as [Hcrt Hok].
      split; [by destruct script|]. by apply assign_script_assignments_ok.
    + destruct script; simpl; lia.
Qed.





(** *** The claim lock [lock_script] *)

Lemma set_data_lock_script location data d :
  lock_script (set_data location data d) = lock_script d.
Proof. unfold set_data. by destruct (decide _). Qed.

(** What one statement of a thread does to the claim locks: nothing,
    except line 199 (it takes the unlocked [lock_script] of its device)
    and line 202 (it gives it back). *)
Lemma run_step_lock_script (t : nat) w w' :
  run_step t w = Some w' →
  ∃ th th' dev,
    threads w !! t = Some th ∧
    devices w !! th_device th = Some dev ∧
    threads w' = <[t := th']> (threads w) ∧
    th_device th' = th_device th ∧
    (((∀ j d1, devices w !! j = Some d1 →
               ∃ d2, devices w' !! j = Some d2 ∧
                     lock_script d2 = lock_script d1) ∧
      (in_claim (pc th') = true → in_claim (pc th) = true)) ∨
     (pc th = L199 ∧ lock_script dev = None ∧
      devices w'
        = <[th_device th := set_lock_script (Some t) dev]> (devices w)) ∨
     (pc th = L202 ∧ in_claim (pc th') = false ∧
      devices w'
        = <[th_device th := set_lock_script None dev]> (devices w))).
Proof.
  intros Hstep. unfold run_step in Hstep.
  destruct (threads w !! t) as [th|] eqn:Hth; [|done]; simpl in Hstep.
  destruct (devices w !! th_device th) as [dev0|] eqn:Hdev; [|done];
    simpl in Hstep.
  exists th.
  destruct (pc th) eqn:Hpc; unfold call_wait in Hstep;
    repeat case_match; simplify_option_eq;
    repeat match goal with
      | H : acquire_location _ _ _ = Returns _ |- _ =>
          apply acquire_location_inv in H as (? & ? & ? & ->)
      | H : release_location _ _ = Returns _ |- _ =>
          apply release_location_inv in H as (? & ? & ->)
      end;
    try (eexists _, dev0; split_and!; [done|done|done|done|];
         left; split; [|by simpl; rewrite ?Hpc];
         intros j d1 Hj; simpl;
         first [ by eauto
               | eapply (insert_device_lookup
                           (λ d1 d2, lock_script d2 = lock_script d1));
                 eauto; by rewrite ?set_data_lock_script ]).
  - (* line 199 *)
    eexists _, dev0; split_and!; [done|done|done|done|].
    right; left. unfold Lock_acquire in *.
    destruct (lock_script dev0); by simplify_eq.
  - (* line 202 *)
    eexists _, dev0; split_and!; [done|done|done|done|].
    right; right. unfold Lock_release in *.
    destruct (lock_script dev0); by simplify_eq.
Qed.

Lemma claim_holds_lock_fresh w : fresh w → claim_holds_lock w.
Proof.
  intros (Hpc & _) t th Hth Hin. by rewrite (Hpc t th Hth) in Hin.
Qed.

Lemma claim_holds_lock_run_step (t : nat) w w' :
  run_step t w = Some w' → claim_holds_lock w → claim_holds_lock w'.
Proof.
  intros Hstep Hinv.
  destruct (run_step_lock_script t w w' Hstep)
    as (th & th' & dev & Hth & Hdev & Hths & Hsame & Hcases).
  intros u uh Hu Hclaim. rewrite Hths in Hu.
  destruct Hcases as [(Hkeep & Hin) | [(Hpc & Hfree & Hdevs)
                                      | (Hpc & Hout & Hdevs)]].
  - (* the claim locks are untouched *)
    destruct (decide (u = t)) as [->|Hne].
    + rewrite lookup_insert_eq in Hu. simplify_eq.
      destruct (Hinv t th Hth (Hin Hclaim)) as (d1 & Hd1 & Hl).
      destruct (Hkeep _ _ Hd1) as (d2 & Hd2 & Hl2).
      exists d2. rewrite Hsame. split; [done|congruence].
    + rewrite lookup_insert_ne in Hu by done.
      destruct (Hinv u uh Hu Hclaim) as (d1 & Hd1 & Hl).
      destruct (Hkeep _ _ Hd1) as (d2 & Hd2 & Hl2).
      exists d2. split; [done|congruence].
  - (* line 199: the lock was free *)
    rewrite Hdevs. destruct (decide (u = t)) as [->|Hne].
    + rewrite lookup_insert_eq in Hu. simplify_eq. rewrite Hsame.
      eexists. split;
        [apply list_lookup_insert_eq; by eapply lookup_lt_Some|done].
    + rewrite lookup_insert_ne in Hu by done.
      destruct (Hinv u uh Hu Hclaim) as (d1 & Hd1 & Hl).
      exists d1. split; [|done].
      rewrite list_lookup_insert_ne; [done|]. intros Heq.
      rewrite Heq in Hdev. congruence.
  - (* line 202: the lock is given back by its holder *)
    rewrite Hdevs. destruct (decide (u = t)) as [->|Hne].
    + rewrite lookup_insert_eq in Hu. simplify_eq. congruence.
    + rewrite lookup_insert_ne in Hu by done.
      destruct (Hinv u uh Hu Hclaim) as (d1 & Hd1 & Hl).
      exists d1. split; [|done].
      rewrite list_lookup_insert_ne; [done|]. intros Heq.
      assert (in_claim (pc th) = true) as Hc by (by rewrite Hpc).
      destruct (Hinv t th Hth Hc) as (d0 & Hd0 & Hl0).
      rewrite Heq in Hd0. congruence.
Qed.

Lemma claim_holds_lock_exec (a : action Data) w w' :
  exec a w = Some w' → claim_holds_lock w → claim_holds_lock w'.
Proof.
  destruct a as [t|t answer|i script location]; simpl.
  - apply claim_holds_lock_run_step.
  - intros Hexec Hinv.
    destruct (threads w !! t) as [th|] eqn:Hth; [|done]; simpl in Hexec.
    destruct (devices w !! th_device th) as [dev0|] eqn:Hdev; [|done];
      simpl in Hexec.
    destruct (pc th) eqn:Hpc; simplify_eq/=.
    intros u uh Hu Hclaim. simpl in *.
    destruct (decide (u = t)) as [->|Hne].
    + rewrite lookup_insert_eq in Hu. by simplify_eq.
    + rewrite lookup_insert_ne in Hu by done.
      destruct (Hinv u uh Hu Hclaim) as (d1 & Hd1 & Hl).
      destruct (insert_device_lookup
                  (λ d1 d2, lock_script d2 = lock_script d1)
                  (devices w) (th_device th) (th_device uh) d1 dev0
                  (set_neighbours answer dev0)) as (d2 & Hd2 & Hl2);
        try done.
      exists d2. split; [done|congruence].
  - intros Hexec Hinv. simplify_option_eq.
    intros u uh Hu Hclaim. simpl in *.
    destruct (Hinv u uh Hu Hclaim) as (d1 & Hd1 & Hl).
    match goal with H : devices w !! i = Some ?d |- _ => rename d into dev0 end.
    destruct (insert_device_lookup
                (λ d1 d2, lock_script d2 = lock_script d1)
                (devices w) i (th_device uh) d1 dev0
                (assign_script script location dev0)) as (d2 & Hd2 & Hl2);
      try done.
    { by destruct script. }
    exists d2. split; [done|congruence].
Qed.

Lemma claim_holds_lock_run (tr : list (action Data)) w w' :
  run_trace tr w = Some w' → claim_holds_lock w → claim_holds_lock w'.
Proof.
  revert w. induction tr as [|a tr IH]; intros w Hrun Hinv; simpl in Hrun.
  - by simplify_eq.
  - destruct (exec a w) as [w1|] eqn:Hexec; [|done]. simpl in Hrun.
    eapply IH; [done|]. by eapply claim_holds_lock_exec.
Qed.

(** X1.  In every state reached from a fresh start: a thread between
    lines 200 and 202 holds the [lock_script] of its device, so no two
    threads of one device are there at the same time; and the release of
    line 202 never raises: it frees the lock and the thread goes on to
    line 205. *)
Theorem claim_lock_exclusive (tr : list (action Data)) w0 w :
  fresh w0 → run_trace tr w0 = Some w →
  (∀ t th, threads w !! t = Some th → in_claim (pc th) = true →
           ∃ dev, devices w !! th_device th = Some dev ∧
                  lock_script dev = Some t) ∧
  (∀ t1 t2 th1 th2,
     threads w !! t1 = Some th1 → threads w !! t2 = Some th2 →
     in_claim (pc th1) = true → in_claim (pc th2) = true →
     th_device th1 = th_device th2 → t1 = t2) ∧
  (∀ t th, threads w !! t = Some th → pc th = L202 →
           ∃ dev, devices w !! th_device th = Some dev ∧
                  run_step t w
                  = Some (set_thread t (set_pc L205 th)
                            (set_device (th_device th)
                               (set_lock_script None dev) w))).
Proof.
  intros Hfresh Hrun.
  assert (claim_holds_lock w) as Hinv.
  { eapply claim_holds_lock_run; [done|]. by apply claim_holds_lock_fresh. }
  split_and!.
  - exact Hinv.
  - intros t1 t2 th1 th2 H1 H2 Hc1 Hc2 Hdev.
    destruct (Hinv t1 th1 H1 Hc1) as (d1 & Hd1 & Hl1).
    destruct (Hinv t2 th2 H2 Hc2) as (d2 & Hd2 & Hl2).
    rewrite Hdev in Hd1. congruence.
  - intros t th Hth Hpc.
    destruct (Hinv t th Hth) as (dev & Hdev & Hl); [by rewrite Hpc|].
    exists dev. split; [done|].
    unfold run_step. rewrite Hth; simpl. rewrite Hdev, Hpc; simpl.
    by rewrite Hl.
Qed.

(** *** Giving a location lock back *)

(** X2.  In every state reached from a fresh start, the release of line
    236 never raises: the thread holds the lock of its location, the
    release frees that lock and takes the thread back to line 199.  A
    thread that stands at line 213 for the same lock is blocked before
    the release and takes the lock with its next statement after it. *)
Theorem location_lock_handover (tr : list (action Data)) w0 w :
  fresh w0 → run_trace tr w0 = Some w →
  ∀ t th, threads w !! t = Some th → pc th = L236 →
          is_Some (devices w !! th_device th) →
  ∃ r w',
    location_lock w (v_location th) = Some r ∧
    lock_store w !! r = Some (Some t) ∧
    run_step t w = Some w' ∧
    w' = set_thread t (set_pc L199 th)
           (set_lock_store (<[r := None]> (lock_store w)) w) ∧
    ∀ u uh, u ≠ t → threads w !! u = Some uh → pc uh = L213 →
            is_Some (devices w !! th_device uh) →
            location_lock w (v_location uh) = Some r →
            run_step u w = None ∧
            run_step u w'
            = Some (set_thread u (set_pc L215 uh)
                      (set_lock_store (<[r := Some u]> (lock_store w')) w')).
Proof.
  intros Hfresh Hrun t th Hth Hpc [dev Hdev].
  assert (body_holds_lock w) as Hinv.
  { eapply body_holds_lock_run; [done|]. by apply body_holds_lock_fresh. }
  destruct (Hinv t th Hth) as (r & Hr & Hheld); [by rewrite Hpc|].
  exists r. eexists. split_and!; [done|done| |reflexivity|].
  - unfold run_step. rewrite Hth; simpl. rewrite Hdev, Hpc; simpl.
    unfold release_location. unfold location_lock in Hr.
    by rewrite Hr, Hheld.
  - intros u uh Hne Hu Hupc [udev Hudev] Hur. unfold location_lock in Hur.
    split.
    + unfold run_step. rewrite Hu; simpl. rewrite Hudev, Hupc; simpl.
      unfold acquire_location. by rewrite Hur, Hheld.
    + unfold run_step; simpl. rewrite lookup_insert_ne by done.
      rewrite Hu; simpl. rewrite Hudev, Hupc; simpl.
      unfold acquire_location; simpl. rewrite Hur.
      rewrite list_lookup_insert_eq by (by eapply lookup_lt_Some).
      simpl. by rewrite list_insert_insert_eq.
Qed.

(** *** The pair a thread works on *)

Lemma py_index_nonneg {A} (l : list A) (i : Z) (x : A) :
  0 ≤ i → py_index l i = Some x → l !! Z.to_nat i = Some x.
Proof.
  intros Hi. unfold py_index. destruct (i <? 0) eqn:Hneg; zbool; [lia|done].
Qed.

Lemma py_index_in_range {A} (l : list A) (i : Z) :
  0 ≤ i < Z.of_nat (length l) →
  ∃ x, py_index l i = Some x ∧ l !! Z.to_nat i = Some x.
Proof.
  intros Hi. unfold py_index. destruct (i <? 0) eqn:Hneg; zbool; [lia|].
  destruct (l !! Z.to_nat i) as [x|] eqn:Hx; [by exists x|].
  apply lookup_ge_None in Hx. lia.
Qed.

Lemma pair_ok_same_lists th dev dev' :
  scripts dev' = scripts dev → locations dev' = locations dev →
  pair_ok th dev → pair_ok th dev'.
Proof.
  intros Hs Hl. unfold pair_ok. destruct (pc th); rewrite ?Hs, ?Hl; done.
Qed.

Lemma pair_ok_extended th dev dev' :
  assignments_extended dev dev' → pair_ok th dev → pair_ok th dev'.
Proof.
  intros [[ms Hs] [ml Hl]]. unfold pair_ok.
  destruct (pc th); rewrite ?Hs, ?Hl; try done;
    first [ intros H; by apply lookup_app_l_Some
          | intros (H & s & Hs1 & Hs2);
            split; [by apply lookup_app_l_Some|];
            exists s; split; [done|]; by apply lookup_app_l_Some ].
Qed.

(** The acting thread after its statement still holds the pair of its
    index. *)
Lemma run_step_pair (t : nat) w w' th dev :
  run_step t w = Some w' →
  threads w !! t = Some th →
  devices w !! th_device th = Some dev →
  index_ok (pc th) (v_index th) (nr_scripturi dev) →
  pair_ok th dev →
  ∃ th', threads w' = <[t := th']> (threads w) ∧
         th_device th' = th_device th ∧ pair_ok th' dev.
Proof.
  intros Hstep Hth Hdev Hidx Hpair.
  unfold run_step in Hstep. rewrite Hth in Hstep. simpl in Hstep.
  rewrite Hdev in Hstep. simpl in Hstep.
  unfold pair_ok in *.
  destruct (pc th) eqn:Hpc; unfold call_wait in Hstep;
    repeat case_match; simplify_option_eq;
    repeat match goal with
      | H : acquire_location _ _ _ = Returns _ |- _ =>
          apply acquire_location_inv in H as (? & ? & ? & ->)
      | H : release_location _ _ = Returns _ |- _ =>
          apply release_location_inv in H as (? & ? & ->)
      end;
    eexists; (split; [reflexivity|]); (split; [reflexivity|]);
    simpl in *; rewrite ?Hpc; try done; try (by eauto).
  - (* line 209 *) apply py_index_nonneg; [lia|done].
  - (* line 210 *) split; [done|]. eexists. split; [done|].
    apply py_index_nonneg; [lia|done].
  - (* line 228 *) destruct Hpair as (Hl & s & [= <-] & Hs). eauto.
Qed.

Lemma assign_script_extended (script : option (Script Data)) location dev :
  assignments_extended dev (assign_script script location dev).
Proof.
  destruct script as [s|]; split; simpl; eauto.
  - exists []. by rewrite app_nil_r.
  - exists []. by rewrite app_nil_r.
Qed.

Lemma pairs_ok_fresh w : fresh w → pairs_ok w.
Proof.
  intros Hfresh. split; [by apply cursor_ok_fresh|].
  destruct Hfresh as (Hpc & _).
  intros t th dev Hth _. unfold pair_ok. by rewrite (Hpc t th Hth).
Qed.

Lemma pairs_ok_exec (a : action Data) w w' :
  exec a w = Some w' → pairs_ok w → pairs_ok w'.
Proof.
  intros Hexec [Hcur Hpairs].
  split; [by eapply cursor_ok_exec|].
  destruct a as [t|t answer|i script location]; simpl in Hexec.
  - (* a statement of a thread *)
    destruct (threads w !! t) as [th|] eqn:Hth;
      [|by unfold run_step in Hexec; rewrite Hth in Hexec].
    destruct (devices w !! th_device th) as [dev|] eqn:Hdev;
      [|by unfold run_step in Hexec; rewrite Hth in Hexec; simpl in Hexec;
           rewrite Hdev in Hexec].
    destruct (run_step_pair t w w' th dev Hexec Hth Hdev)
      as (th' & Hthreads & Hsame & Hpair);
      [by eapply (proj2 Hcur)|by eapply Hpairs|].
    assert (∀ j d2, devices w' !! j = Some d2 →
              ∃ d1, devices w !! j = Some d1 ∧ same_assignments d1 d2)
      as Hback.
    { intros j d2 Hj. destruct (devices w !! j) as [d1|] eqn:Hj1.
      - exists d1. split; [done|].
        destruct (run_step_devices _ t w w' th
                    same_assignments_thread_writes Hexec Hth j d1 Hj1)
          as (d2' & Hj2 & Hsa).
        by simplify_eq.
      - exfalso.
        destruct (run_step_devices _ t w w' th
                    same_assignments_thread_writes Hexec Hth _ dev Hdev)
          as (d0 & Hd0 & _).
        (* the store has the same length: no statement adds a device *)
        apply lookup_ge_None in Hj1. apply lookup_lt_Some in Hj.
        assert (length (devices w') = length (devices w)) as Hlen.
        { clear -Hexec. unfold run_step in Hexec.
          destruct (threads w !! t) as [th|]; [|done]; simpl in Hexec.
          destruct (devices w !! th_device th) as [dev|]; [|done];
            simpl in Hexec.
          destruct (pc th); unfold call_wait in Hexec;
            repeat case_match; simplify_option_eq;
            repeat match goal with
              | H : acquire_location _ _ _ = Returns _ |- _ =>
                  apply acquire_location_devices in H; rewrite H
              | H : release_location _ _ = Returns _ |- _ =>
                  apply release_location_devices in H; rewrite H
              end;
            simpl; by rewrite ?length_insert. }
        lia. }
    intros u uh d2 Hu Hd2. rewrite Hthreads in Hu.
    destruct (Hback _ d2 Hd2) as (d1 & Hd1 & Hs & Hl & _).
    destruct (decide (u = t)) as [->|Hne].
    + rewrite lookup_insert_eq in Hu. simplify_eq.
      rewrite Hsame in Hd1. simplify_eq.
      by apply (pair_ok_same_lists uh dev d2).
    + rewrite lookup_insert_ne in Hu by done.
      apply (pair_ok_same_lists uh d1 d2); [done|done|]. by eapply Hpairs.
  - (* the supervisor answers get_neighbours *)
    destruct (threads w !! t) as [th|] eqn:Hth; [|done]; simpl in Hexec.
    destruct (devices w !! th_device th) as [dev0|] eqn:Hdev; [|done];
      simpl in Hexec.
    destruct (pc th) eqn:Hpc; simplify_eq/=.
    intros u uh d2 Hu Hd2.
    destruct (decide (u = t)) as [->|Hne].
    + rewrite lookup_insert_eq in Hu. by simplify_eq.
    + rewrite lookup_insert_ne in Hu by done.
      destruct (decide (th_device th = th_device uh)) as [Heq|Hdne].
      * rewrite Heq in Hd2.
        rewrite list_lookup_insert_eq in Hd2
          by (rewrite <- Heq; by eapply lookup_lt_Some).
        simplify_eq.
        apply (pair_ok_same_lists uh dev0); [done|done|].
        eapply Hpairs; [done|]. by rewrite <- Heq.
      * rewrite list_lookup_insert_ne in Hd2 by done. by eapply Hpairs.
  - (* the supervisor assigns a script *)
    simplify_option_eq.
    match goal with H : devices w !! i = Some ?d |- _ => rename d into dev0 end.
    intros u uh d2 Hu Hd2. simpl in *.
    destruct (decide (i = th_device uh)) as [->|Hdne].
    + rewrite list_lookup_insert_eq in Hd2 by (by eapply lookup_lt_Some).
      simplify_eq.
      apply (pair_ok_extended uh dev0); [apply assign_script_extended|].
      by eapply Hpairs.
    + rewrite list_lookup_insert_ne in Hd2 by done. by eapply Hpairs.
Qed.

Lemma pairs_ok_run (tr : list (action Data)) w w' :
  run_trace tr w = Some w' → pairs_ok w → pairs_ok w'.
Proof.
  revert w. induction tr as [|a tr IH]; intros w Hrun Hinv; simpl in Hrun.
  - by simplify_eq.
  - destruct (exec a w) as [w1|] eqn:Hexec; [|done]. simpl in Hrun.
    eapply IH; [done|]. by eapply pairs_ok_exec.
Qed.

(** X3.  In every state reached from a fresh start, the reads of lines
    209 and 210 never raise [IndexError]: they give the location and
    the script the device received at the claimed position.  From line
    213 to line 236 the thread works on that pair: its locals [script]
    and [location] are the entry of the assignment list at its
    [index], whatever was assigned meanwhile. *)
Theorem assigned_pair (tr : list (action Data)) w0 w :
  fresh w0 → run_trace tr w0 = Some w →
  ∀ t th dev,
    threads w !! t = Some th → devices w !! th_device th = Some dev →
    (pc th = L209 →
     ∃ l, locations dev !! Z.to_nat (v_index th) = Some l ∧
          run_step t w
          = Some (set_thread t (set_pc L210 (set_location l th)) w)) ∧
    (pc th = L210 →
     ∃ s, scripts dev !! Z.to_nat (v_index th) = Some s ∧
          run_step t w
          = Some (set_thread t (set_pc L213 (set_script (Some s) th)) w)) ∧
    (pc th = L213 ∨ in_body (pc th) = true →
     ∃ s, v_script th = Some s ∧
          assignments dev !! Z.to_nat (v_index th)
          = Some (s, v_location th)).
Proof.
  intros Hfresh Hrun t th dev Hth Hdev.
  assert (pairs_ok w) as [[Hdevs Hidx] Hpairs].
  { eapply pairs_ok_run; [done|]. by apply pairs_ok_fresh. }
  specialize (Hidx t th dev Hth Hdev).
  specialize (Hpairs t th dev Hth Hdev).
  destruct (Hdevs _ _ Hdev) as [_ [Hlen Hnr]].
  split_and!.
  - intros Hpc. rewrite Hpc in Hidx. simpl in Hidx.
    destruct (py_index_in_range (locations dev) (v_index th))
      as (l & Hpy & Hl); [lia|].
    exists l. split; [done|].
    unfold run_step. rewrite Hth; simpl. rewrite Hdev, Hpc; simpl.
    by rewrite Hpy.
  - intros Hpc. rewrite Hpc in Hidx. simpl in Hidx.
    destruct (py_index_in_range (scripts dev) (v_index th))
      as (s & Hpy & Hs); [lia|].
    exists s. split; [done|].
    unfold run_step. rewrite Hth; simpl. rewrite Hdev, Hpc; simpl.
    by rewrite Hpy.
  - intros Hpc. unfold pair_ok in Hpairs.
    assert (locations dev !! Z.to_nat (v_index th) = Some (v_location th) ∧
            ∃ s, v_script th = Some s ∧
                 scripts dev !! Z.to_nat (v_index th) = Some s)
      as (Hl & s & Hs & Hs').
    { destruct Hpc as [Hpc|Hpc]; [by rewrite Hpc in Hpairs|].
      destruct (pc th); try done. }
    exists s. split; [done|]. unfold assignments.
    rewrite lookup_zip_with, Hs'. simpl. by rewrite Hl.
Qed.

(** *** The script body as a whole *)





Section Body.

(** A thread [t] of the device [d], with the other threads [ths], the
    locks [ls] and the class attributes [lk] and [bd]. *)
Context (t d : nat) (f idx loc : Z) (sc : option (Script Data)).
Context (ls : list (option nat)) (lk : list nat) (bd : Barrier).
Context (ths : gmap nat (Thread Data)).

Local Abbreviation at_line p acc res it ds :=
  (mkWorld ds ls lk bd (<[t := mkThread d f p idx loc sc acc res it]> ths)).





End Body.

Lemma set_data_twice location (r1 r2 : Data) d :
  set_data location r2 (set_data location r1 d) = set_data location r2 d.
Proof.
  unfold set_data.
  destruct (decide (location ∈ dom (sensor_data d))) as [Hin|Hout]; simpl.
  - destruct (decide _) as [_|Hn]; simpl.
    + unfold set_sensor_data; simpl. by rewrite insert_insert_eq.
    + exfalso. apply Hn, elem_of_dom. exists r1. apply lookup_insert_eq.
  - by rewrite decide_False.
Qed.



(** *** The registry after setup *)

Lemma py_index_seq (base n : nat) (l : Z) :
  0 ≤ l < Z.of_nat n →
  py_index (seq base n) l = Some (base + Z.to_nat l)%nat.
Proof.
  intros Hl. unfold py_index. destruct (l <? 0) eqn:Hneg; zbool; [lia|].
  apply lookup_seq. split; [done|lia].
Qed.

(** X5.  The first setup gives every location from 0 up to
    [num_locations - 1] a lock of its own, unlocked: the lock of
    location [l] is the [l]th lock created.  So a thread can take the
    lock of one location while another thread holds the lock of a
    different location, and only a second acquire of the same location
    blocks. *)
Theorem setup_devices_locks (n_devices : nat) (num_locations : Z) w :
  locks w = [] →
  ∃ w1, setup_devices n_devices num_locations w = Returns w1 ∧
    ∀ l, 0 ≤ l < num_locations →
      location_lock w1 l = Some (length (lock_store w) + Z.to_nat l)%nat ∧
      ∀ (t u : nat) l', 0 ≤ l' < num_locations → l' ≠ l →
        ∃ w2 w3, acquire_location t l w1 = Returns w2 ∧
                 acquire_location u l w2 = Blocks ∧
                 acquire_location u l' w2 = Returns w3.
Proof.
  intros He.
  destruct (setup_devices_empty n_devices num_locations w He)
    as (w1 & Hw1 & Hl & Hs).
  exists w1. split; [done|]. intros l Hrange.
  assert (∀ k, 0 ≤ k < num_locations →
            location_lock w1 k
            = Some (length (lock_store w) + Z.to_nat k)%nat ∧
            lock_store w1 !! (length (lock_store w) + Z.to_nat k)%nat
            = Some None) as Hlock.
  { intros k Hk. unfold location_lock. rewrite Hl, Hs. split.
    - apply py_index_seq. lia.
    - rewrite lookup_app_r by lia.
      apply lookup_replicate. split; [done|lia]. }
  destruct (Hlock l Hrange) as [Hr Hfree]. split; [done|].
  intros t u l' Hrange' Hne.
  destruct (Hlock l' Hrange') as [Hr' Hfree'].
  unfold location_lock in *. unfold acquire_location.
  rewrite Hr, Hfree. simpl. eexists _, _. split; [done|]. simpl.
  rewrite Hr, Hr'.
  rewrite list_lookup_insert_eq by (by eapply lookup_lt_Some).
  rewrite list_lookup_insert_ne by lia.
  by rewrite Hfree'.
Qed.

(** X6.  A setup call that reads no location (zero or a negative
    number) leaves the registry empty; every acquire then raises
    [IndexError], whatever the location; and the registry is still built
    by the next setup call, from the number of locations that call
    reads. *)
Theorem setup_devices_no_location (n_devices : nat) (num_locations : Z) w :
  num_locations ≤ 0 → locks w = [] →
  ∃ w1, setup_devices n_devices num_locations w = Returns w1 ∧
        locks w1 = [] ∧ lock_store w1 = lock_store w ∧
        (∀ (t : nat) l, acquire_location t l w1 = Raises IndexError) ∧
        (∀ (m : nat) k, 0 ≤ k →
           ∃ w2, setup_devices m k w1 = Returns w2 ∧
                 Z.of_nat (length (locks w2)) = k).
Proof.
  intros Hn He.
  destruct (setup_devices_empty n_devices num_locations w He)
    as (w1 & Hw1 & Hl & Hs).
  assert (Z.to_nat num_locations = 0%nat) as Hz by lia.
  rewrite Hz in Hl, Hs. simpl in Hl, Hs. rewrite app_nil_r in Hs.
  exists w1. split_and!; try done.
  - intros t l. unfold acquire_location. rewrite Hl.
    unfold py_index. simpl. by repeat case_match.
  - intros m k Hk.
    destruct (setup_devices_empty m k w1 Hl) as (w2 & Hw2 & Hl2 & _).
    exists w2. split; [done|]. rewrite Hl2, length_seq. lia.
Qed.

(** *** The end of the simulation *)

Lemma run_step_devices_length (t : nat) w w' :
  run_step t w = Some w' → length (devices w') = length (devices w).
Proof.
  intros Hstep. unfold run_step in Hstep.
  destruct (threads w !! t) as [th|]; [|done]; simpl in Hstep.
  destruct (devices w !! th_device th) as [dev|]; [|done]; simpl in Hstep.
  destruct (pc th); unfold call_wait in Hstep;
    repeat case_match; simplify_option_eq;
    repeat match goal with
      | H : acquire_location _ _ _ = Returns _ |- _ =>
          apply acquire_location_devices in H; rewrite H
      | H : release_location _ _ = Returns _ |- _ =>
          apply release_location_devices in H; rewrite H
      end;
    simpl; by rewrite ?length_insert.
Qed.

Lemma exec_devices_length (a : action Data) w w' :
  exec a w = Some w' → length (devices w') = length (devices w).
Proof.
  destruct a as [t|t answer|i script location]; simpl; intros Hexec.
  - by eapply run_step_devices_length.
  - destruct (threads w !! t) as [th|]; [|done]; simpl in Hexec.
    destruct (devices w !! th_device th) as [dev|]; [|done]; simpl in Hexec.
    destruct (pc th); simplify_eq/=. by rewrite length_insert.
  - destruct (devices w !! i) as [dev|]; [|done]; simplify_eq/=.
    by rewrite length_insert.
Qed.

Lemma same_neighbours_thread_writes :
  thread_writes (Data:=Data) (λ _ d1 d2, neighbours d2 = neighbours d1).
Proof.
  split; try done. intros th dev data _. unfold set_data.
  by destruct (decide _).
Qed.

(** A statement of a thread takes it out of [run] only at line 191, and
    only when [neighbours] is [None]. *)
Lemma run_step_returns (t : nat) w w' th dev :
  run_step t w = Some w' →
  threads w !! t = Some th →
  devices w !! th_device th = Some dev →
  ∃ th', threads w' = <[t := th']> (threads w) ∧
         th_device th' = th_device th ∧
         (pc th' = Terminated → pc th = L191 ∧ neighbours dev = None).
Proof.
  intros Hstep Hth Hdev.
  unfold run_step in Hstep. rewrite Hth in Hstep. simpl in Hstep.
  rewrite Hdev in Hstep. simpl in Hstep.
  destruct (pc th) eqn:Hpc; unfold call_wait in Hstep;
    repeat case_match; simplify_option_eq;
    repeat match goal with
      | H : acquire_location _ _ _ = Returns _ |- _ =>
          apply acquire_location_inv in H as (? & ? & ? & ->)
      | H : release_location _ _ = Returns _ |- _ =>
          apply release_location_inv in H as (? & ? & ->)
      end;
    eexists; (split; [reflexivity|]); (split; [reflexivity|]);
    simpl in *; rewrite ?Hpc; by try done.
Qed.

(** The simulation stays on for device [j] unless the step is the
    supervisor's answer [None] to a thread of the device. *)
Lemma simulation_on_exec (j : nat) (a : action Data) w w' :
  simulation_on j w → exec a w = Some w' →
  simulation_on j w' ∨
  ∃ u uh, a = GetNeighbours u None ∧ threads w !! u = Some uh ∧
          pc uh = L184 ∧ th_device uh = j.
Proof.
  intros [Hdevs Hths] Hexec.
  assert (∀ dev', devices w' !! j = Some dev' →
            ∃ dev, devices w !! j = Some dev) as Hback.
  { intros dev' Hj. apply lookup_lt_is_Some.
    rewrite <- (exec_devices_length a w w' Hexec).
    by eapply lookup_lt_Some. }
  destruct a as [t|t answer|i script location].
  - left. simpl in Hexec.
    destruct (threads w !! t) as [th|] eqn:Hth;
      [|by unfold run_step in Hexec; rewrite Hth in Hexec].
    destruct (devices w !! th_device th) as [dev|] eqn:Hdev;
      [|by unfold run_step in Hexec; rewrite Hth in Hexec; simpl in Hexec;
           rewrite Hdev in Hexec].
    destruct (run_step_returns t w w' th dev Hexec Hth Hdev)
      as (th' & Hthreads & Hsame & Hret).
    split.
    + intros dev' Hj. destruct (Hback dev' Hj) as [dev0 Hj0].
      destruct (run_step_devices _ t w w' th
                  same_neighbours_thread_writes Hexec Hth j dev0 Hj0)
        as (dev2 & Hj2 & Hn).
      simplify_eq. rewrite Hn. by apply Hdevs.
    + intros u uh Hu Hj. rewrite Hthreads in Hu.
      destruct (decide (u = t)) as [->|Hne].
      * rewrite lookup_insert_eq in Hu. simplify_eq.
        intros Hend. destruct (Hret Hend) as [_ Hnone].
        rewrite Hsame in Hdevs. by apply (Hdevs dev).
      * rewrite lookup_insert_ne in Hu by done. by eapply Hths.
  - simpl in Hexec.
    destruct (threads w !! t) as [th|] eqn:Hth; [|done]; simpl in Hexec.
    destruct (devices w !! th_device th) as [dev|] eqn:Hdev; [|done];
      simpl in Hexec.
    destruct (pc th) eqn:Hpc; simplify_eq/=.
    destruct (decide (th_device th = j)) as [Hj|Hj].
    + destruct answer as [ns|]; [|right; by eauto 10].
      left. split.
      * intros dev'. rewrite <- Hj. simpl.
        rewrite list_lookup_insert_eq by (by eapply lookup_lt_Some).
        by intros [= <-].
      * simpl. intros u uh Hu Hju. destruct (decide (u = t)) as [->|Hne].
        -- rewrite lookup_insert_eq in Hu. by simplify_eq.
        -- rewrite lookup_insert_ne in Hu by done. by eapply Hths.
    + left. split.
      * intros dev'. simpl. rewrite list_lookup_insert_ne by done.
        apply Hdevs.
      * simpl. intros u uh Hu Hju. destruct (decide (u = t)) as [->|Hne].
        -- rewrite lookup_insert_eq in Hu. by simplify_eq.
        -- rewrite lookup_insert_ne in Hu by done. by eapply Hths.
  - left. simpl in Hexec.
    destruct (devices w !! i) as [dev|] eqn:Hdev; [|done]; simplify_eq/=.
    split; [|done].
    intros dev'. simpl. destruct (decide (i = j)) as [->|Hne].
    + rewrite list_lookup_insert_eq by (by eapply lookup_lt_Some).
      intros [= <-].
      assert (neighbours (assign_script script location dev)
              = neighbours dev) as -> by (by destruct script).
      by apply Hdevs.
    + rewrite list_lookup_insert_ne by done. apply Hdevs.
Qed.

Lemma simulation_on_fresh (j : nat) w : fresh w → simulation_on j w.
Proof.
  intros (Hpc & _ & Hdev). split.
  - intros dev Hj. by destruct (Hdev j dev Hj) as (id & sd & [= <-]).
  - intros t th Hth _. by rewrite (Hpc t th Hth).
Qed.

Lemma returned_after_none (j : nat) (tr : list (action Data)) w0 w t th :
  simulation_on j w0 → run_trace tr w0 = Some w →
  threads w !! t = Some th → th_device th = j → pc th = Terminated →
  ∃ tr1 tr2 w1 u uh,
    tr = tr1 ++ GetNeighbours u None :: tr2 ∧
    run_trace tr1 w0 = Some w1 ∧
    threads w1 !! u = Some uh ∧ pc uh = L184 ∧ th_device uh = j.
Proof.
  revert w0. induction tr as [|a tr IH]; intros w0 Hon Hrun Hth Hj Hend;
    simpl in Hrun.
  - simplify_eq. by destruct (proj2 Hon t th Hth eq_refl).
  - destruct (exec a w0) as [w1|] eqn:Hexec; [|done]. simpl in Hrun.
    destruct (simulation_on_exec j a w0 w1 Hon Hexec)
      as [Hon1|(u & uh & -> & Hu & Hpc & Hdev)].
    + destruct (IH w1 Hon1 Hrun Hth Hj Hend)
        as (tr1 & tr2 & w2 & u & uh & -> & Hrun1 & Hu).
      exists (a :: tr1), tr2, w2, u, uh. split; [done|]. split; [|done].
      simpl. by rewrite Hexec.
    + by exists [], tr, w0, u, uh.
Qed.

(** X7.  A thread returns from [run] only through the [break] of line
    192, and only after the supervisor has answered [None] to the
    [get_neighbours()] call of a thread of the same device: in a run from
    a fresh start that leaves a thread returned, the trace contains such
    an answer, given to a thread of that device standing at line 184. *)
Theorem run_returns_after_none (tr : list (action Data)) w0 w t th :
  fresh w0 → run_trace tr w0 = Some w →
  threads w !! t = Some th → pc th = Terminated →
  ∃ tr1 tr2 w1 u uh,
    tr = tr1 ++ GetNeighbours u None :: tr2 ∧
    run_trace tr1 w0 = Some w1 ∧
    threads w1 !! u = Some uh ∧ pc uh = L184 ∧
    th_device uh = th_device th.
Proof.
  intros Hfresh Hrun Hth Hend.
  eapply returned_after_none; eauto. by apply simulation_on_fresh.
Qed.

(** *** The start of a round *)

(** X8.  The supervisor answers the [get_neighbours()] call of a thread
    at line 184.  With its next four statements (lines 185-191) the
    thread sets the cursor to zero and raises the event, and stands at
    line 195, or has returned from [run] when the answer was [None];
    nothing else in the world has changed.  Every other thread of the
    device that waits for the event at line 189 then passes it and, with
    its second statement, reaches line 195 too, or returns as well. *)
Theorem neighbours_answer (t : nat) w th dev answer :
  threads w !! t = Some th → pc th = L184 →
  devices w !! th_device th = Some dev →
  let next := match answer with Some _ => L195 | None => Terminated end in
  let dev' := set_event_neighbours true
                (set_script_crt 0 (set_neighbours answer dev)) in
  ∃ w1,
    run_trace (GetNeighbours t answer :: replicate 4 (Run t)) w = Some w1 ∧
    w1 = set_thread t (set_pc next th) (set_device (th_device th) dev' w) ∧
    ∀ u uh, u ≠ t → threads w !! u = Some uh →
            th_device uh = th_device th → pc uh = L189 →
            run_trace [Run u; Run u] w1
            = Some (set_thread u (set_pc next uh) w1).
Proof.
  intros Hth Hpc Hdev next dev'.
  destruct w as [ds ls lk bd ths].
  destruct th as [d f p idx loc sc acc res it]. simpl in *. subst p.
  assert (d < length ds)%nat as Hlt by (by eapply lookup_lt_Some).
  pose (W := λ p dv, mkWorld (<[d := dv]> ds) ls lk bd
                       (<[t := mkThread d f p idx loc sc acc res it]> ths)).
  assert (∀ p dv dv' q,
            run_step t (W p dv)
            = Some (set_thread t
                      (set_pc q (mkThread d f p idx loc sc acc res it))
                      (set_device d dv' (W p dv))) →
            run_step t (W p dv) = Some (W q dv')) as Hstep.
  { intros p dv dv' q ->.
    unfold W, set_thread, set_device, set_devices; simpl.
    by rewrite insert_insert_eq, list_insert_insert_eq. }
  assert (∀ p dv, threads (W p dv) !! t
                  = Some (mkThread d f p idx loc sc acc res it)) as Ht
    by (intros p dv; apply lookup_insert_eq).
  assert (run_trace (GetNeighbours t answer :: replicate 4 (Run t))
            (mkWorld ds ls lk bd ths) = Some (W next dev')) as Hrun.
  { cbn [run_trace replicate exec]. simpl. rewrite Hth; simpl.
    rewrite Hdev; simpl.
    change (run_step t (W L185 (set_neighbours answer dev))
            ≫= (λ w1, run_step t w1
            ≫= (λ w2, run_step t w2
            ≫= (λ w3, run_step t w3 ≫= Some))) = Some (W next dev')).
    rewrite (Hstep L185 _ (set_script_crt 0 (set_neighbours answer dev)) L186).
    2:{ unfold run_step. rewrite Ht; simpl. by rewrite list_lookup_insert_eq by done. }
    cbn [mbind option_bind].
    rewrite (Hstep L186 _ dev' L189).
    2:{ unfold run_step. rewrite Ht; simpl. by rewrite list_lookup_insert_eq by done. }
    cbn [mbind option_bind].
    rewrite (Hstep L189 dev' dev' L191).
    2:{ unfold run_step. rewrite Ht; simpl. rewrite list_lookup_insert_eq by done. simpl.
        unfold set_thread, set_device, set_devices; simpl.
        by rewrite list_insert_insert_eq. }
    cbn [mbind option_bind].
    rewrite (Hstep L191 dev' dev' next).
    2:{ unfold run_step. rewrite Ht; simpl. rewrite list_lookup_insert_eq by done. simpl.
        unfold set_thread, set_device, set_devices, next; simpl.
        rewrite list_insert_insert_eq. by destruct answer. }
    done. }
  exists (W next dev'). split_and!; [done|done|].
  intros u uh Hne Hu Hud Hupc.
  cbn [run_trace exec].
  assert (run_step u (W next dev')
          = Some (set_thread u (set_pc L191 uh) (W next dev'))) as ->.
  { unfold run_step. simpl. rewrite lookup_insert_ne by done.
    rewrite Hu; simpl. rewrite Hud, list_lookup_insert_eq by done; simpl.
    by rewrite Hupc. }
  cbn [mbind option_bind].
  assert (run_step u (set_thread u (set_pc L191 uh) (W next dev'))
          = Some (set_thread u (set_pc next uh) (W next dev'))) as ->.
  { unfold run_step. simpl. rewrite lookup_insert_eq; simpl.
    rewrite Hud, list_lookup_insert_eq by done. simpl.
    unfold set_thread, next; simpl.
    destruct answer; simpl; by rewrite insert_insert_eq. }
  done.
Qed.

(** *** The threads a device starts *)

Lemma start_spec (th : Thread Data) w :
  threads w !! (start th w).1 = None ∧
  (start th w).2 = set_thread (start th w).1 th w.
Proof.
  split; [|done]. unfold start; simpl.
  apply not_elem_of_dom, is_fresh.
Qed.

Lemma start_workers_spec (n d : nat) w ts w' :
  start_workers n d w = (ts, w') →
  length ts = n ∧ NoDup ts ∧
  (∀ t, t ∈ ts → threads w !! t = None ∧
                 threads w' !! t = Some (DeviceThread_init d 0)) ∧
  (∀ t, t ∉ ts → threads w' !! t = threads w !! t) ∧
  devices w' = devices w ∧ lock_store w' = lock_store w ∧
  locks w' = locks w ∧ bariera_devices w' = bariera_devices w.
Proof.
  revert w ts w'. induction n as [|n IH]; intros w ts w' Hrun;
    simpl in Hrun.
  - simplify_eq. split_and!; try done; [constructor|].
    intros t Hin. by apply elem_of_nil in Hin.
  - destruct (start_spec (DeviceThread_init d 0) w) as [Hnew _].
    unfold start in Hrun, Hnew. simpl in Hrun, Hnew.
    set (t := stdpp.base.fresh (dom (threads w))) in *.
    destruct (start_workers n d _) as [ts1 w2] eqn:Hrest. simplify_eq.
    destruct (IH _ _ _ Hrest)
      as (Hlen & Hnd & Hin & Hout & Hds & Hls & Hlk & Hbd).
    simpl in *.
    assert (t ∉ ts1) as Hfresh.
    { intros Ht. destruct (Hin t Ht) as [Hnone _].
      by rewrite lookup_insert_eq in Hnone. }
    split_and!; try done.
    + by rewrite Hlen.
    + by constructor.
    + intros u Hu. apply elem_of_cons in Hu as [->|Hu].
      * split; [done|]. rewrite (Hout _ Hfresh). apply lookup_insert_eq.
      * destruct (Hin u Hu) as [Hnone Hsome]. split; [|done].
        destruct (decide (u = t)) as [->|Hne]; [done|].
        by rewrite lookup_insert_ne in Hnone.
    + intros u Hu. apply not_elem_of_cons in Hu as [Hne Hu].
      rewrite (Hout u Hu). by rewrite lookup_insert_ne.
Qed.

(** X9.  [Device(device_id, sensor_data, supervisor)] never fails.  The
    new device is the last of the object store; it has started eight
    threads, all new and all different, every one on this device and, as
    long as it has not taken a step, at the top of [run]: [self.thread] with [first == 1] and the seven of
    [self.threads] with [first == 0].  The party count of its barrier
    [bar_thr] is the number of its threads.  No other thread, no lock and
    no class attribute has changed, and a world that was fresh still
    is. *)
Theorem Device_new_threads (device_id : Z) (readings : gmap Z Data) w :
  ∃ dev h w',
    Device_init device_id readings = Returns dev ∧
    Device_new device_id readings w
    = Returns (length (devices w), h, w') ∧
    devices w' = devices w ++ [dev] ∧
    lock_store w' = lock_store w ∧ locks w' = locks w ∧
    bariera_devices w' = bariera_devices w ∧
    NoDup (all_threads h) ∧ length (dt_threads h) = 7%nat ∧
    num_threads (bar_thr dev) = Z.of_nat (length (all_threads h)) ∧
    (∀ t, t ∈ all_threads h →
          threads w !! t = None ∧
          threads w' !! t
          = Some (DeviceThread_init (length (devices w))
                    (if decide (t = dt_thread h) then 1 else 0))) ∧
    (∀ t, t ∉ all_threads h → threads w' !! t = threads w !! t) ∧
    (fresh w → fresh w').
Proof.
  set (dev := mkDevice device_id readings [] [] 0 0 false (Some []) false
                Lock_new (mkBarrier 8 8 (mkCondition Lock_new []))).
  set (d := length (devices w)).
  set (w0 := set_devices (devices w ++ [dev]) w).
  unfold Device_new.
  change (Device_init device_id readings) with (Returns dev).
  cbv beta iota zeta. fold d w0.
  destruct (start_spec (DeviceThread_init d 1) w0) as [Hnew Hw1].
  destruct (start (DeviceThread_init d 1) w0) as [t w1] eqn:Hstart.
  simpl in Hnew, Hw1. subst w1.
  destruct (start_workers 7 d _) as [ts w2] eqn:Hrest.
  destruct (start_workers_spec _ _ _ _ _ Hrest)
    as (Hlen & Hnd & Hin & Hout & Hds & Hls & Hlk & Hbd).
  simpl in *.
  assert (t ∉ ts) as Hfresh.
  { intros Ht. destruct (Hin t Ht) as [Hnone _].
    by rewrite lookup_insert_eq in Hnone. }
  assert (∀ u, u ∈ t :: ts →
            threads w !! u = None ∧
            threads w2 !! u
            = Some (DeviceThread_init d (if decide (u = t) then 1 else 0)))
    as Hall.
  { intros u Hu. apply elem_of_cons in Hu as [->|Hu].
    - split; [done|]. rewrite (Hout _ Hfresh), lookup_insert_eq.
      by destruct (decide (t = t)).
    - destruct (Hin u Hu) as [Hnone Hsome].
      destruct (decide (u = t)) as [->|Hne]; [done|].
      by rewrite lookup_insert_ne in Hnone. }
  assert (∀ u, u ∉ t :: ts → threads w2 !! u = threads w !! u) as Hrest'.
  { intros u Hu. apply not_elem_of_cons in Hu as [Hne Hu].
    rewrite (Hout u Hu). by rewrite lookup_insert_ne. }
  exists dev, (mkDeviceThreads t ts), w2.
  split_and!; try done.
  - by constructor.
  - unfold all_threads; simpl. rewrite Hlen. done.
  - intros (Hpc & Hlocks & Hdevs). split_and!.
    + intros u uh Hu. destruct (decide (u ∈ t :: ts)) as [Hin'|Hout'].
      * destruct (Hall u Hin') as [_ Hsome]. by simplify_eq.
      * rewrite (Hrest' u Hout') in Hu. by eapply Hpc.
    + intros r l. rewrite Hls. apply Hlocks.
    + intros j devj. rewrite Hds. intros Hj.
      apply lookup_app_Some in Hj as [Hj|[_ Hj]]; [by eapply Hdevs|].
      apply list_lookup_singleton_Some in Hj as [_ <-].
      by exists device_id, readings.
Qed.

(** *** Device.shutdown *)

(** A thread that has left [run] takes no further step and nobody
    changes it. *)
Lemma finished_exec (a : action Data) w w' t th :
  exec a w = Some w' → threads w !! t = Some th →
  finished (pc th) = true → threads w' !! t = Some th.
Proof.
  intros Hexec Hth Hfin.
  destruct a as [u|u answer|i script location]; simpl in Hexec.
  - destruct (decide (u = t)) as [->|Hne].
    + unfold run_step in Hexec. rewrite Hth in Hexec. simpl in Hexec.
      destruct (devices w !! th_device th); [|done]. simpl in Hexec.
      by destruct (pc th).
    + destruct (run_step_locks u w w' Hexec) as (uh & uh' & _ & -> & _).
      by rewrite lookup_insert_ne.
  - destruct (threads w !! u) as [uh|] eqn:Hu; [|done]; simpl in Hexec.
    destruct (devices w !! th_device uh) as [dev|]; [|done]; simpl in Hexec.
    destruct (pc uh) eqn:Hpc; simplify_eq/=.
    destruct (decide (u = t)) as [->|Hne].
    + simplify_eq. by rewrite Hpc in Hfin.
    + by rewrite lookup_insert_ne.
  - destruct (devices w !! i); by simplify_eq/=.
Qed.

Lemma finished_run (tr : list (action Data)) w w' t th :
  run_trace tr w = Some w' → threads w !! t = Some th →
  finished (pc th) = true → threads w' !! t = Some th.
Proof.
  revert w. induction tr as [|a tr IH]; intros w Hrun Hth Hfin;
    simpl in Hrun; [by simplify_eq|].
  destruct (exec a w) as [w1|] eqn:Hexec; [|done]. simpl in Hrun.
  eapply IH; [done| |done]. by eapply finished_exec.
Qed.

Lemma joins_return (l : list nat) w :
  joins l w = Returns tt ↔
  ∀ t, t ∈ l → ∃ th, threads w !! t = Some th ∧ finished (pc th) = true.
Proof.
  induction l as [|t l IH]; simpl.
  - split; [|done]. intros _ t Hin. by apply elem_of_nil in Hin.
  - unfold join at 1. split.
    + intros Hret u Hu.
      destruct (threads w !! t) as [th|] eqn:Hth; [|done].
      destruct (finished (pc th)) eqn:Hfin; [|done].
      apply elem_of_cons in Hu as [->|Hu]; [by eauto|].
      by apply IH.
    + intros Hall.
      destruct (Hall t) as (th & -> & ->); [by left|].
      apply IH. intros u Hu. apply Hall. by right.
Qed.

Lemma joins_blocks (l : list nat) w :
  (∀ t, t ∈ l → is_Some (threads w !! t)) →
  joins l w = Blocks ↔
  ∃ t th, t ∈ l ∧ threads w !! t = Some th ∧ finished (pc th) = false.
Proof.
  induction l as [|t l IH]; simpl; intros Hstarted.
  - split; [done|]. intros (t & th & Hin & _). by apply elem_of_nil in Hin.
  - destruct (Hstarted t) as [th Hth]; [by left|].
    assert (∀ u, u ∈ l → is_Some (threads w !! u)) as Hrest
      by (intros u Hu; apply Hstarted; by right).
    unfold join at 1. rewrite Hth.
    destruct (finished (pc th)) eqn:Hfin.
    + rewrite (IH Hrest). split.
      * intros (u & uh & Hu & Hrem). exists u, uh. split; [by right|done].
      * intros (u & uh & Hu & Huh & Hnot).
        apply elem_of_cons in Hu as [->|Hu]; [|by eauto].
        simplify_eq. congruence.
    + split; [|done]. intros _. exists t, th. split; [by left|done].
Qed.

(** X10.  [shutdown()] called in a state returns exactly when each of
    the eight threads of the device has left [run]; when all of them
    were started and one is still inside [run], it blocks.  Once it can
    return it can return in every later state.  In a run from a fresh
    start, a thread it has joined has either ended with an exception or
    returned after the supervisor answered [None] to a
    [get_neighbours()] call of the thread's device: without that answer
    and without an exception [shutdown()] never returns. *)
Theorem shutdown_joins (h : DeviceThreads) w :
  (shutdown h w = Returns tt ↔
   ∀ t, t ∈ all_threads h →
        ∃ th, threads w !! t = Some th ∧ finished (pc th) = true) ∧
  ((∀ t, t ∈ all_threads h → is_Some (threads w !! t)) →
   shutdown h w = Blocks ↔
   ∃ t th, t ∈ all_threads h ∧ threads w !! t = Some th ∧
           finished (pc th) = false) ∧
  (∀ (tr : list (action Data)) w',
     run_trace tr w = Some w' → shutdown h w = Returns tt →
     shutdown h w' = Returns tt) ∧
  (∀ (tr : list (action Data)) w0,
     fresh w0 → run_trace tr w0 = Some w → shutdown h w = Returns tt →
     ∀ t, t ∈ all_threads h →
       ∃ th, threads w !! t = Some th ∧
         ((∃ e, pc th = Crashed e) ∨
          ∃ tr1 tr2 w1 u uh,
            tr = tr1 ++ GetNeighbours u None :: tr2 ∧
            run_trace tr1 w0 = Some w1 ∧
            threads w1 !! u = Some uh ∧ pc uh = L184 ∧
            th_device uh = th_device th)).
Proof.
  change (shutdown h w) with (joins (all_threads h) w).
  split_and!.
  - apply joins_return.
  - apply joins_blocks.
  - intros tr w' Hrun Hret.
    change (shutdown h w') with (joins (all_threads h) w').
    apply joins_return. intros t Hin.
    destruct (proj1 (joins_return _ _) Hret t Hin) as (th & Hth & Hfin).
    exists th. split; [|done]. by eapply finished_run.
  - intros tr w0 Hfresh Hrun Hret t Hin.
    destruct (proj1 (joins_return _ _) Hret t Hin) as (th & Hth & Hfin).
    exists th. split; [done|].
    destruct (pc th) eqn:Hpc; try done; [right|left; by eauto].
    eapply returned_after_none; eauto. by apply simulation_on_fresh.
Qed.

(** *** What a run never changes *)

Lemma wait_step_num_threads (t : nat) p b r b' :
  wait_step t p b = Some (r, b') → num_threads b' = num_threads b.
Proof.
  unfold wait_step. destruct p; repeat case_match; by intros [= <- <-].
Qed.

Lemma same_identity_refl (d : Device Data) : same_identity d d.
Proof. done. Qed.

Lemma same_identity_set_data location data (d : Device Data) :
  same_identity d (set_data location data d).
Proof. unfold set_data. by destruct (decide _). Qed.

Lemma same_objects_refl (w : World Data) : same_objects w w.
Proof. split_and!; try done; eauto using same_identity_refl. by eexists. Qed.

Lemma same_objects_trans (w1 w2 w3 : World Data) :
  same_objects w1 w2 → same_objects w2 w3 → same_objects w1 w3.
Proof.
  intros (Hl & Hs & Hb & Hn & Hd & Hk & Ht) (Hl' & Hs' & Hb' & Hn' & Hd' & Hk' & Ht').
  split_and!; try congruence.
  - intros j dev Hj. destruct (Hd j dev Hj) as (dev2 & Hj2 & Hi1 & Hi2).
    destruct (Hd' j dev2 Hj2) as (dev3 & Hj3 & Hi1' & Hi2').
    exists dev3. split; [done|]. split; congruence.
  - intros t th Hth. destruct (Ht t th Hth) as (th2 & Hth2 & Hi1 & Hi2).
    destruct (Ht' t th2 Hth2) as (th3 & Hth3 & Hi1' & Hi2').
    exists th3. split; [done|]. split; congruence.
Qed.

(** Replacing a thread and a device by ones of the same identity. *)
Lemma same_objects_update (w : World Data) t th th' (d : nat) dev dev' ls b :
  threads w !! t = Some th → same_thread th th' →
  devices w !! d = Some dev → same_identity dev dev' →
  length ls = length (lock_store w) →
  num_threads b = num_threads (bariera_devices w) →
  same_objects w
    (mkWorld (<[d := dev']> (devices w)) ls (locks w) b
       (<[t := th']> (threads w))).
Proof.
  intros Hth Hsame Hdev Hid Hls Hb.
  split_and!; simpl; try done.
  - by rewrite length_insert.
  - intros j devj Hj.
    by eapply (insert_device_lookup same_identity).
  - apply dom_insert_lookup_L. by eexists.
  - intros u uh Hu. destruct (decide (u = t)) as [->|Hne].
    + rewrite lookup_insert_eq. simplify_eq. by eexists.
    + rewrite lookup_insert_ne by done. by exists uh.
Qed.

Lemma run_step_same_objects (t : nat) w w' :
  run_step t w = Some w' → same_objects w w'.
Proof.
  intros Hstep. unfold run_step in Hstep.
  destruct (threads w !! t) as [th|] eqn:Hth; [|done]; simpl in Hstep.
  destruct (devices w !! th_device th) as [dev0|] eqn:Hdev; [|done];
    simpl in Hstep.
  pose proof (list_insert_id _ _ _ Hdev) as Hid.
  destruct w as [ds ls lk bd ths]; simpl in *.
  destruct (pc th) eqn:Hpc; unfold call_wait in Hstep;
    repeat case_match; simplify_option_eq;
    repeat match goal with
      | H : acquire_location _ _ _ = Returns _ |- _ =>
          apply acquire_location_inv in H as (? & ? & ? & ->)
      | H : release_location _ _ = Returns _ |- _ =>
          apply release_location_inv in H as (? & ? & ->)
      | H : wait_step _ _ _ = Some _ |- _ =>
          apply wait_step_num_threads in H
      end;
    unfold set_thread, set_device, set_devices, set_lock_store,
      set_bariera_devices; simpl;
    try (by (eapply (same_objects_update (mkWorld ds ls lk bd ths));
             simpl; rewrite ?length_insert;
             eauto using same_identity_set_data));
    try (by (rewrite <- Hid at 2;
             eapply (same_objects_update (mkWorld ds ls lk bd ths));
             simpl; rewrite ?length_insert; eauto)).
Qed.

Lemma exec_same_objects (a : action Data) w w' :
  exec a w = Some w' → same_objects w w'.
Proof.
  destruct a as [t|t answer|i script location]; simpl; intros Hexec.
  - by eapply run_step_same_objects.
  - destruct (threads w !! t) as [th|] eqn:Hth; [|done]; simpl in Hexec.
    destruct (devices w !! th_device th) as [dev|] eqn:Hdev; [|done];
      simpl in Hexec.
    destruct (pc th); simplify_eq/=.
    by eapply (same_objects_update w).
  - destruct (devices w !! i) as [dev|] eqn:Hdev; [|done]; simplify_eq/=.
    split_and!; simpl; try done.
    + by rewrite length_insert.
    + intros j devj Hj.
      assert (same_identity dev (assign_script script location dev))
        as Hsame by (by destruct script).
      by eapply (insert_device_lookup same_identity).
    + intros t th Hth. by exists th.
Qed.

Lemma run_same_objects (tr : list (action Data)) w w' :
  run_trace tr w = Some w' → same_objects w w'.
Proof.
  revert w. induction tr as [|a tr IH]; intros w Hrun; simpl in Hrun.
  - simplify_eq. apply same_objects_refl.
  - destruct (exec a w) as [w1|] eqn:Hexec; [|done]. simpl in Hrun.
    eapply same_objects_trans; [by eapply exec_same_objects|by apply IH].
Qed.

(** X11.  A run creates and removes nothing: whatever the threads and
    the supervisor do, the registry [Device.locks] and the number of lock
    objects stay as they are, so do the number of devices, the id of each
    device and the party counts of its barrier and of the barrier of the
    devices; the threads are the same, each on the device and with the
    [first] flag it was created with. *)
Theorem run_keeps_objects (tr : list (action Data)) w w' :
  run_trace tr w = Some w' →
  locks w' = locks w ∧
  length (lock_store w') = length (lock_store w) ∧
  num_threads (bariera_devices w') = num_threads (bariera_devices w) ∧
  length (devices w') = length (devices w) ∧
  (∀ j dev, devices w !! j = Some dev →
            ∃ dev', devices w' !! j = Some dev' ∧
                    device_id dev' = device_id dev ∧
                    num_threads (bar_thr dev') = num_threads (bar_thr dev)) ∧
  dom (threads w') = dom (threads w) ∧
  (∀ t th, threads w !! t = Some th →
           ∃ th', threads w' !! t = Some th' ∧
                  th_device th' = th_device th ∧ first th' = first th).
Proof. intros Hrun. exact (run_same_objects tr w w' Hrun). Qed.

(** *** Reading back what was written *)

(** X12.  [get_data] after [set_data] on the same location gives the
    value written when the device knows the location and [None] when it
    does not; a write does not change what [get_data] gives for another
    location; of two writes to one location the second wins; writes to
    different locations can be made in either order. *)
Theorem get_data_set_data (d : Device Data) location data :
  (get_data location (set_data location data d)).1
  = (if decide (location ∈ dom (sensor_data d)) then Some data else None) ∧
  (∀ other, other ≠ location →
     (get_data other (set_data location data d)).1 = (get_data other d).1) ∧
  (∀ data', set_data location data' (set_data location data d)
            = set_data location data' d) ∧
  (∀ other data', other ≠ location →
     set_data other data' (set_data location data d)
     = set_data location data (set_data other data' d)).
Proof.
  split_and!.
  - unfold get_data; simpl. rewrite set_data_dom.
    unfold set_data. destruct (decide _) as [Hin|Hin]; [|done].
    simpl. by rewrite lookup_insert_eq.
  - intros other Hne. unfold get_data; simpl. rewrite set_data_dom.
    unfold set_data. destruct (decide (location ∈ _)); [|done].
    simpl. by rewrite lookup_insert_ne.
  - intros data'. apply set_data_twice.
  - intros other data' Hne. unfold set_data at 2 4.
    destruct (decide (location ∈ dom (sensor_data d))) as [Hl|Hl];
      destruct (decide (other ∈ dom (sensor_data d))) as [Ho|Ho].
    + unfold set_data, set_sensor_data; simpl.
      rewrite !dom_insert_lookup_L by (by apply elem_of_dom).
      rewrite !decide_True by done. simpl.
      by rewrite insert_insert_ne.
    + unfold set_data; simpl.
      rewrite dom_insert_lookup_L by (by apply elem_of_dom).
      by rewrite decide_False, decide_True.
    + unfold set_data; simpl.
      rewrite dom_insert_lookup_L by (by apply elem_of_dom).
      by rewrite decide_True, decide_False.
    + unfold set_data. by rewrite !decide_False.
Qed.

(** *** Names *)

(** X13.  Two devices print the same ([__str__]) exactly when they have
    the same id, and the names of their threads are the same exactly
    then; the eight threads of one device all carry one name. *)
Theorem Device_str_inj (d1 d2 : Device Data) :
  (Names.Device_str d1 = Names.Device_str d2 ↔
   device_id d1 = device_id d2) ∧
  (Names.DeviceThread_name d1 = Names.DeviceThread_name d2 ↔
   device_id d1 = device_id d2).
Proof.
  unfold Names.Device_str, Names.DeviceThread_name.
  split; (split; [|by intros ->]); intros Heq;
    apply (inj (String.append _)) in Heq;
    by apply (inj stdpp.pretty.pretty) in Heq.
Qed.
End Properties.

(** *** Barrier.wait: the cycles of a barrier *)











(** *** Barrier.__init__ *)

Lemma stuck_inv_exec (a : barrier_action) (s s' : BarrierRun) :
  barrier_exec a s = Some s' → stuck_inv s → stuck_inv s'.
Proof.
  intros Hexec [Hcount Htest Hinside Hasleep]. destruct a as [t|t].
  - simpl in Hexec. destruct (br_inside s !! t) eqn:Ht; [done|]. simplify_eq.
    split; simpl; try done.
    + intros u Hu. by_thread u t. by eapply Htest.
    + intros u p Hu. by_thread u t. by eapply Hinside.
    + intros u Hu. by_thread u t. by apply Hasleep.
  - simpl in Hexec.
    destruct (br_inside s !! t) as [p|] eqn:Ht; [|done]. simpl in Hexec.
    destruct (wait_step t p (br_barrier s)) as [[p' b']|] eqn:Hstep; [|done].
    simpl in Hexec. destruct (Hinside t p Ht) as (H24 & H25 & H30).
    destruct p; try done; simpl in Hstep.
    + (* line 20 *)
      destruct (cond_lock (cond (br_barrier s))); [done|].
      simpl in Hstep. simplify_eq/=.
      split; simpl; try done.
      * intros u Hu. by_thread u t. by eapply Htest.
      * intros u p Hu. by_thread u t. by eapply Hinside.
      * intros u Hu. by_thread u t. by apply Hasleep.
    + (* line 21 *)
      simplify_eq/=. split; simpl; [lia|intros; lia|..].
      * intros u p Hu. by_thread u t. by eapply Hinside.
      * intros u Hu. by_thread u t. by apply Hasleep.
    + (* line 22: the counter is below zero *)
      pose proof (Htest t Ht) as Hneg.
      destruct (count_threads (br_barrier s) =? 0) eqn:Hz; zbool; [lia|].
      simplify_eq/=. split; simpl; try done.
      * intros u p Hu. by_thread u t. by eapply Hinside.
      * intros u Hu. by_thread u t. by apply Hasleep.
    + (* line 28 *)
      simplify_eq/=. split; simpl; try done.
      * intros u Hu. by_thread u t. by eapply Htest.
      * intros u p Hu. by_thread u t. by eapply Hinside.
      * intros u Hu. apply elem_of_app. by_thread u t.
        -- right. by apply list_elem_of_singleton.
        -- left. by apply Hasleep.
    + (* asleep and still on the list: no step *)
      rewrite decide_True in Hstep by (by apply Hasleep). done.
Qed.

Lemma stuck_inv_run (tr : list barrier_action) (s s' : BarrierRun) :
  barrier_run tr s = Some s' → stuck_inv s → stuck_inv s'.
Proof.
  revert s. induction tr as [|a tr IH]; intros s Hrun Hinv; simpl in Hrun.
  - by simplify_eq.
  - destruct (barrier_exec a s) as [s1|] eqn:Hexec; [|done]. simpl in Hrun.
    eapply IH; [done|]. by eapply stuck_inv_exec.
Qed.

(** C6 (as the code has it).  [Barrier(n)] never fails: for every party
    count [n], positive or not, construction returns a barrier whose
    [num_threads] and [count_threads] are both [n], with an unlocked
    condition and no waiter.  When [n] is not positive, that barrier
    never opens: whatever the threads do, none is let through and none
    that is inside [wait] ever leaves it. *)
Theorem Barrier_init_returns (n : Z) :
  Barrier_init n = Returns (mkBarrier n n (mkCondition None [])) ∧
  (n ≤ 0 →
   ∀ tr s,
     barrier_run tr (barrier_start (mkBarrier n n (mkCondition None [])))
       = Some s →
     (∀ t, ¬ released s t) ∧
     (∀ t s', is_Some (br_inside s !! t) →
              barrier_exec (Advance t) s = Some s' →
              is_Some (br_inside s' !! t))).
Proof.
  split; [reflexivity|]. intros Hn tr s Hrun.
  assert (stuck_inv s) as [Hcount Htest Hinside Hasleep].
  { eapply stuck_inv_run; [done|]. split; simpl; try done. }
  split.
  - intros t [Ht|[Ht|[Ht Hout]]].
    + by destruct (Hinside t _ Ht) as (_ & _ & ?).
    + by destruct (Hinside t _ Ht) as (_ & ? & _).
    + by apply Hout, Hasleep.
  - intros t s' [p Ht] Hexec. simpl in Hexec. rewrite Ht in Hexec.
    simpl in Hexec.
    destruct (wait_step t p (br_barrier s)) as [[p' b']|] eqn:Hstep; [|done].
    simpl in Hexec. destruct (Hinside t p Ht) as (H24 & H25 & H30).
    destruct p; try done; simpl in Hstep;
      repeat case_match; simplify_eq/=; by simplify_map_eq.
Qed.

(** ** The statements at concrete inputs *)

Lemma world2_fresh : fresh world2.
Proof. solve_fresh. Qed.


Lemma world1_fresh : fresh world1.
Proof. solve_fresh. Qed.

Lemma contend_runs : is_Some (run_trace contend world2).
Proof. vm_compute. by eexists. Qed.


(** C1 at a concrete input: two devices that are neighbours of each
    other, both with a script for location 0; thread 0 is inside the
    script body and thread 1 stands at line 213. *)
Lemma location_lock_mutual_exclusion_witness :
  fresh world2 ∧
  ∃ w, run_trace contend world2 = Some w ∧
    (∀ t th, threads w !! t = Some th → in_body (pc th) = true →
             ∃ r, location_lock w (v_location th) = Some r ∧
                  lock_store w !! r = Some (Some t)) ∧
    (∀ t1 t2 th1 th2,
       threads w !! t1 = Some th1 → threads w !! t2 = Some th2 →
       in_body (pc th1) = true → in_body (pc th2) = true →
       v_location th1 = v_location th2 → t1 = t2) ∧
    (∀ t th w' j dev,
       threads w !! t = Some th → run_step t w = Some w' →
       devices w !! j = Some dev →
       ∃ dev', devices w' !! j = Some dev' ∧
               ∀ l, sensor_data dev' !! l ≠ sensor_data dev !! l →
                    in_body (pc th) = true ∧ l = v_location th) ∧
    (∀ t th w' th',
       threads w !! t = Some th → run_step t w = Some w' →
       threads w' !! t = Some th' →
       v_script_data th' ≠ v_script_data th ∨ v_result th' ≠ v_result th →
       in_body (pc th) = true).
Proof.
  split; [exact world2_fresh|].
  destruct contend_runs as [w Hw]. exists w. split; [exact Hw|].
  exact (location_lock_mutual_exclusion contend world2 w world2_fresh Hw).
Defined.

(** What the run [contend] leads to: thread 0 is at line 215 with the
    lock, thread 1 is at line 213 and cannot proceed. *)
Example contend_outcome :
  (w ← run_trace contend world2;
   th0 ← threads w !! 0%nat; th1 ← threads w !! 1%nat;
   Some (pc th0, pc th1, lock_store w, run_step 1 w))
  = Some (L215, L213, [Some 0%nat], None).
Proof. by vm_compute. Qed.


(** The cycle completes: after thread 1 has notified and returned and
    thread 0 has woken and returned, the count is 2 again and nobody is
    inside or waiting. *)
Example two_arrivals_complete :
  barrier_run (two_arrivals ++ advances 1 3 ++ advances 0 2)
    (barrier_start barrier2)
  = Some (mkBarrierRun barrier2 ∅ 2 {[ 0%nat := 0; 1%nat := 1 ]}).
Proof. by vm_compute. Qed.


(** After a whole round with one script and eight threads the cursor is
    9: the length, and one for each thread's last claim. *)
Example cursor_after_round_one :
  (w ← run_trace round_one world8; observe 0 0 w) = Some (L182, 1, 9, 1%nat).
Proof. by vm_compute. Qed.



(** C5, the claim as stated, fails: with three locks in the registry,
    location -1 is out of range and yet no error is raised: the thread
    takes the lock of location 2. *)
Lemma acquire_negative_location :
  acquire_location 7 (-1) world3
  = Returns (set_lock_store [None; None; Some 7%nat] world3) ∧
  acquire_location 7 2 world3
  = Returns (set_lock_store [None; None; Some 7%nat] world3).
Proof. split; reflexivity. Qed.

(** C5 (as the code has it) at concrete inputs: location 3 and location
    -4 raise, location -1 is location 2. *)
Lemma acquire_location_out_of_range_witness :
  acquire_location 7 3 world3 = Raises IndexError ∧
  acquire_location 7 (-4) world3 = Raises IndexError ∧
  acquire_location 7 (-1) world3 = acquire_location 7 (-1 + 3) world3.
Proof.
  split_and!.
  - apply (proj1 (acquire_location_out_of_range 7 3 world3)).
    left. by apply Z.leb_le.
  - apply (proj1 (acquire_location_out_of_range 7 (-4) world3)).
    by right.
  - apply (proj2 (acquire_location_out_of_range 7 (-1) world3)).
    split; [by apply Z.leb_le|done].
Defined.

(** C6, the claim as stated, fails: [Barrier(0)], which is also
    [Barrier()], and [Barrier(-3)] are constructed without an error. *)
Lemma Barrier_init_nonpositive :
  Barrier_init 0 = Returns (mkBarrier 0 0 (mkCondition None [])) ∧
  Barrier_default = Returns (mkBarrier 0 0 (mkCondition None [])) ∧
  Barrier_init (-3) = Returns (mkBarrier (-3) (-3) (mkCondition None [])).
Proof. by split_and!. Qed.


(** The registry the two setup calls of the two devices leave. *)
Example setup_twice :
  setup_many [2%nat; 2%nat] 3 world0
  = Returns (mkWorld [device0; device1] [None; None; None] [0; 1; 2]%nat
               barrier2 ∅).
Proof. reflexivity. Qed.

(** C8 at a concrete input. *)
Lemma assign_script_spec_witness :
  length (scripts device0) = length (locations device0) ∧
  (assignments (assign_script (Some average) 0 device0)
     = assignments device0 ++ [(average, 0)] ∧
   scripts (assign_script (Some average) 0 device0)
     = scripts device0 ++ [average] ∧
   locations (assign_script (Some average) 0 device0)
     = locations device0 ++ [0] ∧
   nr_scripturi (assign_script (Some average) 0 device0)
     = nr_scripturi device0 + 1 ∧
   timepoint_done (assign_script (Some average) 0 device0)
     = timepoint_done device0) ∧
  (timepoint_done (assign_script None 0 device0) = true ∧
   assignments (assign_script None 0 device0) = assignments device0 ∧
   scripts (assign_script None 0 device0) = scripts device0 ∧
   locations (assign_script None 0 device0) = locations device0 ∧
   nr_scripturi (assign_script None 0 device0) = nr_scripturi device0) ∧
  (∀ w (t i : nat) th,
     threads w !! t = Some th → pc th = L195 → th_device th = i →
     devices w !! i = Some device0 →
     ∃ w1, exec (AssignScript i None 0) w = Some w1 ∧
           run_step t w1 = Some (set_thread t (set_pc L199 th) w1)).
Proof.
  split; [reflexivity|].
  exact (assign_script_spec device0 average 0 eq_refl).
Defined.

(** C9 at concrete inputs: location 0 is known to [device0], location 5
    is not. *)
Lemma set_data_spec_witness :
  set_data 5 15 device0 = device0 ∧
  sensor_data (set_data 0 15 device0) !! 0 = Some 15 ∧
  dom (sensor_data (set_data 0 15 device0)) = dom (sensor_data device0).
Proof.
  split_and!.
  - apply (proj1 (set_data_spec device0 5 15)).
    intros [x Hx]%elem_of_dom. by vm_compute in Hx.
  - apply (proj1 (proj2 (set_data_spec device0 0 15))).
    apply elem_of_dom. by exists 10.
  - apply (set_data_spec device0 0 15).
Defined.

(** C10 at concrete inputs. *)
Lemma get_data_spec_witness :
  (get_data 0 device0).1 = Some 10 ∧
  (get_data 5 device0).1 = None ∧
  (get_data 0 device0).2 = device0.
Proof.
  split_and!.
  - by apply (proj1 (get_data_spec device0 0)).
  - apply (proj1 (proj2 (get_data_spec device0 5))).
    intros [x Hx]%elem_of_dom. by vm_compute in Hx.
  - apply (get_data_spec device0 0).
Defined.


(** C6 (as the code has it) at a concrete input: on [Barrier(0)] thread 0
    arrives, finds the counter at -1 and sleeps; it is not let through. *)
Lemma Barrier_init_returns_witness :
  0 ≤ 0 ∧
  ∃ s, barrier_run (Call 0 :: advances 0 4)
         (barrier_start (mkBarrier 0 0 (mkCondition None []))) = Some s ∧
       (∀ t, ¬ released s t) ∧
       (∀ t s', is_Some (br_inside s !! t) →
                barrier_exec (Advance t) s = Some s' →
                is_Some (br_inside s' !! t)).
Proof.
  split; [done|].
  destruct (barrier_run (Call 0 :: advances 0 4)
              (barrier_start (mkBarrier 0 0 (mkCondition None []))))
    as [s|] eqn:Hrun; [|by vm_compute in Hrun].
  exists s. split; [done|].
  exact (proj2 (Barrier_init_returns 0) ltac:(done) _ s Hrun).
Defined.

(** Thread 0 on [Barrier(0)] after its arrival: the counter is -1, the
    thread sleeps and cannot proceed. *)
Example barrier0_stuck :
  (s ← barrier_run (Call 0 :: advances 0 4)
         (barrier_start (mkBarrier 0 0 (mkCondition None [])));
   Some (count_threads (br_barrier s), br_inside s !! 0%nat,
         barrier_exec (Advance 0) s))
  = Some (-1, Some W28_blocked, None).
Proof. by vm_compute. Qed.

(** ** The further properties at concrete inputs *)

Lemma claim_on_empty_runs : is_Some (run_trace claim_on_empty world1).
Proof. vm_compute. by eexists. Qed.

Lemma contend_release_runs : is_Some (run_trace contend_release world2).
Proof. vm_compute. by eexists. Qed.

(** X1 at a concrete input: the thread of [world1] has claimed and stands
    at line 202. *)
Lemma claim_lock_exclusive_witness :
  fresh world1 ∧
  ∃ w, run_trace claim_on_empty world1 = Some w ∧
    (∀ t th, threads w !! t = Some th → in_claim (pc th) = true →
             ∃ dev, devices w !! th_device th = Some dev ∧
                    lock_script dev = Some t) ∧
    (∀ t1 t2 th1 th2,
       threads w !! t1 = Some th1 → threads w !! t2 = Some th2 →
       in_claim (pc th1) = true → in_claim (pc th2) = true →
       th_device th1 = th_device th2 → t1 = t2) ∧
    (∀ t th, threads w !! t = Some th → pc th = L202 →
             ∃ dev, devices w !! th_device th = Some dev ∧
                    run_step t w
                    = Some (set_thread t (set_pc L205 th)
                              (set_device (th_device th)
                                 (set_lock_script None dev) w))).
Proof.
  split; [exact world1_fresh|].
  destruct claim_on_empty_runs as [w Hw]. exists w. split; [exact Hw|].
  exact (claim_lock_exclusive claim_on_empty world1 w world1_fresh Hw).
Defined.

(** The thread holds [lock_script] at line 202 and has given it back
    after its next statement. *)
Example claim_on_empty_lock :
  (w ← run_trace claim_on_empty world1; dev ← devices w !! 0%nat;
   w' ← run_step 0 w; dev' ← devices w' !! 0%nat;
   Some (lock_script dev, lock_script dev'))
  = Some (Some 0%nat, None).
Proof. by vm_compute. Qed.

(** X2 at a concrete input: thread 0 stands at line 236 with the lock of
    location 0, thread 1 waits for it at line 213. *)
Lemma location_lock_handover_witness :
  fresh world2 ∧
  ∃ w, run_trace contend_release world2 = Some w ∧
    ∀ t th, threads w !! t = Some th → pc th = L236 →
            is_Some (devices w !! th_device th) →
    ∃ r w',
      location_lock w (v_location th) = Some r ∧
      lock_store w !! r = Some (Some t) ∧
      run_step t w = Some w' ∧
      w' = set_thread t (set_pc L199 th)
             (set_lock_store (<[r := None]> (lock_store w)) w) ∧
      ∀ u uh, u ≠ t → threads w !! u = Some uh → pc uh = L213 →
              is_Some (devices w !! th_device uh) →
              location_lock w (v_location uh) = Some r →
              run_step u w = None ∧
              run_step u w'
              = Some (set_thread u (set_pc L215 uh)
                        (set_lock_store (<[r := Some u]> (lock_store w')) w')).
Proof.
  split; [exact world2_fresh|].
  destruct contend_release_runs as [w Hw]. exists w. split; [exact Hw|].
  exact (location_lock_handover contend_release world2 w world2_fresh Hw).
Defined.

(** The lock goes from thread 0 to thread 1. *)
Example contend_release_outcome :
  (w ← run_trace contend_release world2;
   w' ← run_trace [Run 0; Run 1] w;
   th0 ← threads w !! 0%nat; th1 ← threads w !! 1%nat;
   th0' ← threads w' !! 0%nat; th1' ← threads w' !! 1%nat;
   Some (pc th0, pc th1, lock_store w, pc th0', pc th1', lock_store w'))
  = Some (L236, L213, [Some 0%nat], L199, L215, [Some 1%nat]).
Proof. by vm_compute. Qed.

(** X3 at a concrete input: after [contend] thread 0 is inside the
    script body and thread 1 stands at line 213, each with the pair of
    its device. *)
Lemma assigned_pair_witness :
  fresh world2 ∧
  ∃ w, run_trace contend world2 = Some w ∧
    ∀ t th dev,
      threads w !! t = Some th → devices w !! th_device th = Some dev →
      (pc th = L209 →
       ∃ l, locations dev !! Z.to_nat (v_index th) = Some l ∧
            run_step t w
            = Some (set_thread t (set_pc L210 (set_location l th)) w)) ∧
      (pc th = L210 →
       ∃ s, scripts dev !! Z.to_nat (v_index th) = Some s ∧
            run_step t w
            = Some (set_thread t (set_pc L213 (set_script (Some s) th)) w)) ∧
      (pc th = L213 ∨ in_body (pc th) = true →
       ∃ s, v_script th = Some s ∧
            assignments dev !! Z.to_nat (v_index th)
            = Some (s, v_location th)).
Proof.
  split; [exact world2_fresh|].
  destruct contend_runs as [w Hw]. exists w. split; [exact Hw|].
  exact (assigned_pair contend world2 w world2_fresh Hw).
Defined.


(** The end-to-end scenario: the neighbour's reading comes first, the
    average of 20 and 10 is 15, and both devices read 15 afterwards; the
    body takes 12 statements. *)
Example script_body_average :
  readings 0 (devices world_at_215) [1%nat; 0%nat] = [20; 10] ∧
  sensor_data <$> script_body average 0 0%nat [1%nat] (devices world_at_215)
  = [{[ 0 := 15 ]}; {[ 0 := 15 ]}] ∧
  script_body_steps 0 0%nat [1%nat] (devices world_at_215) = 12%nat.
Proof. by vm_compute. Qed.

(** X5 at a concrete input: two devices, three locations. *)
Lemma setup_devices_locks_witness :
  locks world0 = [] ∧
  ∃ w1, setup_devices 2 3 world0 = Returns w1 ∧
    ∀ l, 0 ≤ l < 3 →
      location_lock w1 l = Some (length (lock_store world0) + Z.to_nat l)%nat ∧
      ∀ (t u : nat) l', 0 ≤ l' < 3 → l' ≠ l →
        ∃ w2 w3, acquire_location t l w1 = Returns w2 ∧
                 acquire_location u l w2 = Blocks ∧
                 acquire_location u l' w2 = Returns w3.
Proof.
  split; [reflexivity|].
  exact (setup_devices_locks 2 3 world0 eq_refl).
Defined.

(** X6 at a concrete input: the testcase has no location. *)
Lemma setup_devices_no_location_witness :
  0 ≤ 0 ∧ locks world0 = [] ∧
  ∃ w1, setup_devices 2 0 world0 = Returns w1 ∧
        locks w1 = [] ∧ lock_store w1 = lock_store world0 ∧
        (∀ (t : nat) l, acquire_location t l w1 = Raises IndexError) ∧
        (∀ (m : nat) k, 0 ≤ k →
           ∃ w2, setup_devices m k w1 = Returns w2 ∧
                 Z.of_nat (length (locks w2)) = k).
Proof.
  split; [lia|]. split; [reflexivity|].
  exact (setup_devices_no_location 2 0 world0 ltac:(lia) eq_refl).
Defined.

(** X7 at a concrete input: the thread of [world1] has returned, and the
    trace has the answer [None] as its second action. *)
Lemma run_returns_after_none_witness :
  fresh world1 ∧
  run_trace simulation_end world1 = Some world1_ended ∧
  threads world1_ended !! 0%nat
  = Some (mkThread 0 1 Terminated 0 0 None [] None []) ∧
  pc (mkThread (Data:=Z) 0 1 Terminated 0 0 None [] None []) = Terminated ∧
  ∃ tr1 tr2 w1 u uh,
    simulation_end = tr1 ++ GetNeighbours u None :: tr2 ∧
    run_trace tr1 world1 = Some w1 ∧
    threads w1 !! u = Some uh ∧ pc uh = L184 ∧
    th_device uh
    = th_device (mkThread (Data:=Z) 0 1 Terminated 0 0 None [] None []).
Proof.
  assert (run_trace simulation_end world1 = Some world1_ended) as Hrun
    by (by vm_compute).
  split_and!; [exact world1_fresh|exact Hrun|reflexivity|reflexivity|].
  exact (run_returns_after_none simulation_end world1 world1_ended 0%nat _
           world1_fresh Hrun eq_refl eq_refl).
Defined.

(** X8 at a concrete input: the supervisor answers with one neighbour. *)
Lemma neighbours_answer_witness :
  threads world_asking !! 0%nat = Some thread_asking ∧
  pc thread_asking = L184 ∧
  devices world_asking !! th_device thread_asking = Some device0 ∧
  ∃ w1,
    run_trace (GetNeighbours 0 (Some [1%nat]) :: replicate 4 (Run 0))
      world_asking = Some w1 ∧
    w1 = set_thread 0 (set_pc L195 thread_asking)
           (set_device (th_device thread_asking)
              (set_event_neighbours true
                 (set_script_crt 0 (set_neighbours (Some [1%nat]) device0)))
              world_asking) ∧
    ∀ u uh, u ≠ 0%nat → threads world_asking !! u = Some uh →
            th_device uh = th_device thread_asking → pc uh = L189 →
            run_trace [Run u; Run u] w1
            = Some (set_thread u (set_pc L195 uh) w1).
Proof.
  split_and!; try reflexivity.
  exact (neighbours_answer 0 world_asking thread_asking device0
           (Some [1%nat]) eq_refl eq_refl eq_refl).
Defined.

(** When the answer is [None] both threads of [world_asking] return. *)
Example world_asking_none :
  (w ← run_trace (GetNeighbours 0 None :: runs 0 4 ++ runs 1 2) world_asking;
   th0 ← threads w !! 0%nat; th1 ← threads w !! 1%nat;
   Some (pc th0, pc th1))
  = Some (Terminated, Terminated).
Proof. by vm_compute. Qed.

(** Two devices are constructed one after the other: sixteen threads, the
    threads 0 and 8 with [first == 1]; [shutdown] of the first device
    blocks. *)
Example two_devices_constructed :
  match Device_new 0 {[ 0 := 10 ]} world_empty with
  | Returns (d0, h0, w1) =>
      match Device_new 1 {[ 0 := 20 ]} w1 with
      | Returns (d1, h1, w2) =>
          (d0, all_threads h0, d1, all_threads h1,
           (th ← threads w2 !! 8%nat; Some (th_device th, first th)),
           size (threads w2), shutdown h0 w2)
          = (0%nat, [0; 1; 2; 3; 4; 5; 6; 7]%nat,
             1%nat, [8; 9; 10; 11; 12; 13; 14; 15]%nat,
             Some (1%nat, 1), 16%nat, Blocks)
      | _ => False
      end
  | _ => False
  end.
Proof. by vm_compute. Qed.

(** X11 at a concrete input: the run [contend] of two devices. *)
Lemma run_keeps_objects_witness :
  ∃ w', run_trace contend world2 = Some w' ∧
    locks w' = locks world2 ∧
    length (lock_store w') = length (lock_store world2) ∧
    num_threads (bariera_devices w') = num_threads (bariera_devices world2) ∧
    length (devices w') = length (devices world2) ∧
    (∀ j dev, devices world2 !! j = Some dev →
              ∃ dev', devices w' !! j = Some dev' ∧
                      device_id dev' = device_id dev ∧
                      num_threads (bar_thr dev')
                      = num_threads (bar_thr dev)) ∧
    dom (threads w') = dom (threads world2) ∧
    (∀ t th, threads world2 !! t = Some th →
             ∃ th', threads w' !! t = Some th' ∧
                    th_device th' = th_device th ∧ first th' = first th).
Proof.
  destruct contend_runs as [w' Hw]. exists w'. split; [exact Hw|].
  exact (run_keeps_objects contend world2 w' Hw).
Defined.

Module NamesAtInputs.

Import stdpp.strings.

(** The id is printed in decimal, as ["%d"] does. *)
Example Device_str_device1 :
  Names.Device_str device1 = "Device 1"%string ∧
  Names.DeviceThread_name device1 = "Device Thread 1"%string ∧
  Names.Device_str (mkDevice (-12) (∅ : gmap Z Z) [] [] 0 0 false (Some [])
                      false None barrier8)
  = "Device -12"%string.
Proof. by vm_compute. Qed.

End NamesAtInputs.
